(** * Kingbase MCP: the SQL statement classifier and the access mediator

    A shallow embedding of [database.py] (classes [SQLValidator] and
    [KingbaseDatabase]) and the properties its specification states.

    Text.  A Python [str] is modelled as a [string] of 7-bit characters:
    [str.upper], [str.strip], [str.split] and the [re] classes [\s], [\w]
    and [\b] are given here for the ASCII range, where they are exact
    (the blanks of Python 3 are the codes 9-13, 28-31 and 32).  A character
    above 127 is left unchanged by [upper] and is neither blank nor a word
    character.  Messages are kept as the UTF-8 bytes of the source's
    literals.

    Effects.  The database behind [psycopg2] is a transition system of
    the caller's choice ([driver]); a call of the mediator is a function
    from a world (database state and the events so far) to a result or
    an exception and the world after it.  Creating and closing cursors
    is not recorded; [conn.close()] does not fail.  A failure of a driver
    operation is the database's [psycopg2.Error]; an exception that the
    client library raises before the statement reaches the database (a
    [ValueError] or [IndexError] while it binds the parameters) is
    outside the model.

    Configuration.  The module [config] is not among the sources; the
    configuration object carries what [database.py] reads from it. *)

From Stdlib Require Import Bool Ascii String List ZArith Lia.
From Stdlib Require Import DecimalString Permutation.
Import ListNotations.
Open Scope string_scope.

(** ** Python string primitives *)

Module PyStr.

(** [str.isspace] on one 7-bit character; also the regex class [\s]
    there. *)
Definition is_space (c : ascii) : bool :=
  let n := nat_of_ascii c in
  (((9 <=? n) && (n <=? 13)) || ((28 <=? n) && (n <=? 32)))%nat.

Definition is_lower (c : ascii) : bool :=
  let n := nat_of_ascii c in ((97 <=? n) && (n <=? 122))%nat.

Definition is_upper (c : ascii) : bool :=
  let n := nat_of_ascii c in ((65 <=? n) && (n <=? 90))%nat.

Definition is_digit (c : ascii) : bool :=
  let n := nat_of_ascii c in ((48 <=? n) && (n <=? 57))%nat.

(** The regex class [\w] on a 7-bit character: letters, digits and the
    underscore. *)
Definition is_word (c : ascii) : bool :=
  is_lower c || is_upper c || is_digit c || (nat_of_ascii c =? 95)%nat.

Definition upper_char (c : ascii) : ascii :=
  if is_lower c then ascii_of_nat (nat_of_ascii c - 32) else c.

(** [s.upper()], for a text of 7-bit characters *)
Fixpoint upper (s : string) : string :=
  match s with
  | EmptyString => EmptyString
  | String c r => String (upper_char c) (upper r)
  end.

Definition is_empty (s : string) : bool :=
  match s with EmptyString => true | String _ _ => false end.

(** [s.lstrip()] *)
Fixpoint lstrip (s : string) : string :=
  match s with
  | EmptyString => EmptyString
  | String c r => if is_space c then lstrip r else s
  end.

(** [s.rstrip()] *)
Fixpoint rstrip (s : string) : string :=
  match s with
  | EmptyString => EmptyString
  | String c r =>
      let r' := rstrip r in
      if is_space c && is_empty r' then EmptyString else String c r'
  end.

(** [s.strip()] *)
Definition strip (s : string) : string := rstrip (lstrip s).

(** [s.split()]: the maximal runs of non-blank characters, in order.
    [split_run s] reads [s] from its end: it gives the run of non-blank
    characters [s] starts with (empty when [s] starts with a blank) and
    the words after that run. *)
Definition push_word (w : string) (ws : list string) : list string :=
  if is_empty w then ws else w :: ws.

Fixpoint split_run (s : string) : string * list string :=
  match s with
  | EmptyString => (EmptyString, [])
  | String c r =>
      let (w, ws) := split_run r in
      if is_space c then (EmptyString, push_word w ws)
      else (String c w, ws)
  end.

Definition split (s : string) : list string :=
  let (w, ws) := split_run s in push_word w ws.

(** [s.startswith(p)] *)
Fixpoint startswith (p s : string) : bool :=
  match p, s with
  | EmptyString, _ => true
  | String a p', String b s' => Ascii.eqb a b && startswith p' s'
  | String _ _, EmptyString => false
  end.

(** [s.startswith((p1, ..., pn))] *)
Definition startswith_any (ps : list string) (s : string) : bool :=
  existsb (fun p => startswith p s) ps.

(** [needle in hay] *)
Fixpoint contains (needle hay : string) : bool :=
  startswith needle hay ||
  match hay with
  | EmptyString => false
  | String _ r => contains needle r
  end.

(** [x in xs] for a collection of strings *)
Definition mem (x : string) (xs : list string) : bool :=
  existsb (String.eqb x) xs.

End PyStr.

(** ** Regular expressions of [_validate_readonly]

    The patterns the source hands to [re.search] use literals, [\s+],
    [\w+] and [\b] only.  [re_search] is a backtracking matcher for that
    fragment; [prev] is the character before the current position, which
    [\b] needs. *)

Module Re.
Import PyStr.

Inductive cls := Blank (* \s *) | WordCh (* \w *).

Inductive item :=
| Bnd                  (* \b *)
| Lit (s : string)     (* a literal *)
| Plus (k : cls).      (* \s+ or \w+ *)

Definition in_cls (k : cls) (c : ascii) : bool :=
  match k with Blank => is_space c | WordCh => is_word c end.

Definition word_opt (c : option ascii) : bool :=
  match c with Some c => is_word c | None => false end.

Definition head (s : string) : option ascii :=
  match s with EmptyString => None | String c _ => Some c end.

(** The last character of [prev] followed by [s]. *)
Fixpoint last_of (prev : option ascii) (s : string) : option ascii :=
  match s with
  | EmptyString => prev
  | String c r => last_of (Some c) r
  end.

(** [\b] between [prev] and the text [s] that follows. *)
Definition boundary (prev : option ascii) (s : string) : bool :=
  xorb (word_opt prev) (word_opt (head s)).

(** [s] without the prefix [p], when it starts with [p]. *)
Fixpoint drop_prefix (p s : string) : option string :=
  match p, s with
  | EmptyString, _ => Some s
  | String a p', String b s' =>
      if Ascii.eqb a b then drop_prefix p' s' else None
  | String _ _, EmptyString => None
  end.

(** Does the pattern match a prefix of [s]? *)
Fixpoint match_here (p : list item) (prev : option ascii) (s : string)
  : bool :=
  match p with
  | [] => true
  | Bnd :: p' => boundary prev s && match_here p' prev s
  | Lit l :: p' =>
      match drop_prefix l s with
      | Some s' => match_here p' (last_of prev l) s'
      | None => false
      end
  | Plus k :: p' =>
      (fix run (s : string) : bool :=
         match s with
         | EmptyString => false
         | String c s' =>
             in_cls k c && (match_here p' (Some c) s' || run s')
         end) s
  end.

Fixpoint search_from (p : list item) (prev : option ascii) (s : string)
  : bool :=
  match_here p prev s ||
  match s with
  | EmptyString => false
  | String c s' => search_from p (Some c) s'
  end.

(** [re.search(p, s)] is not [None] *)
Definition re_search (p : list item) (s : string) : bool :=
  search_from p None s.

End Re.

(** ** Configuration *)

Inductive SecurityMode := READONLY | LIMITED_WRITE | FULL_ACCESS.

(** Modelled from the spec: the module [config] is not part of the
    sources.  Its schema access policy has three exclusive shapes: the
    wildcard, an explicit set of schema names, or live discovery. *)
Inductive SchemaAccessPolicy :=
| AllowAll
| AllowList (names : list string)
| AutoDiscover.

(** Modelled from the spec: the configuration object that
    [get_config_instance] returns, with the attributes [database.py]
    reads from it. *)
Record Config := {
  security_mode : SecurityMode;
  schema_access : SchemaAccessPolicy;
  max_result_rows : Z;
  enable_query_log : bool
}.

Definition is_readonly_mode (c : Config) : bool :=
  match security_mode c with READONLY => true | _ => false end.

Definition is_all_schemas_allowed (c : Config) : bool :=
  match schema_access c with AllowAll => true | _ => false end.

Definition is_auto_discover_schemas (c : Config) : bool :=
  match schema_access c with AutoDiscover => true | _ => false end.

Definition allowed_schemas (c : Config) : list string :=
  match schema_access c with AllowList l => l | _ => [] end.

(** ** The statement classifier: class [SQLValidator] *)

Module SQLValidator.
Import PyStr Re.

(** The three keyword sets.  A Python set is given as a list without
    repetition; the code only tests membership and asks whether some
    element occurs in a text, which do not depend on the order. *)
Definition READONLY_OPERATIONS : list string :=
  ["SELECT"; "WITH"; "SHOW"; "DESCRIBE"; "EXPLAIN"; "ANALYZE"].

Definition WRITE_OPERATIONS : list string := ["INSERT"; "UPDATE"].

Definition DANGEROUS_OPERATIONS : list string :=
  ["DELETE"; "DROP"; "CREATE"; "ALTER"; "TRUNCATE"; "GRANT"; "REVOKE"].

(** [words[0] if words else ""] *)
Definition _extract_first_keyword (sql_upper : string) : string :=
  match split sql_upper with
  | w :: _ => w
  | [] => ""
  end.

(** [r'\bW1\s+W2\b'] *)
Definition phrase (w1 w2 : string) : list item :=
  [Bnd; Lit w1; Plus Blank; Lit w2; Bnd].

Definition dangerous_patterns : list (list item) :=
  [ phrase "DROP" "TABLE";
    phrase "TRUNCATE" "TABLE";
    phrase "DELETE" "FROM";
    phrase "INSERT" "INTO";
    [Bnd; Lit "UPDATE"; Plus Blank; Plus WordCh; Plus Blank; Lit "SET"; Bnd];
    phrase "CREATE" "TABLE";
    phrase "ALTER" "TABLE" ].

Definition _validate_readonly (first_keyword sql_upper : string) : bool :=
  if negb (mem first_keyword READONLY_OPERATIONS) then false
  else if String.eqb first_keyword "SELECT" then
    negb (existsb (fun pattern => re_search pattern sql_upper)
                  dangerous_patterns)
  else
    let forbidden_in_readonly :=
      (WRITE_OPERATIONS ++ DANGEROUS_OPERATIONS)%list in
    negb (existsb (fun forbidden => contains forbidden sql_upper)
                  forbidden_in_readonly).

Definition _validate_limited_write (first_keyword sql_upper : string)
  : bool :=
  let allowed_operations :=
    (READONLY_OPERATIONS ++ WRITE_OPERATIONS)%list in
  if negb (mem first_keyword allowed_operations) then false
  else negb (existsb (fun dangerous => contains dangerous sql_upper)
                     DANGEROUS_OPERATIONS).

(** [sql.upper().strip()] *)
Definition normalize (sql : string) : string := strip (upper sql).

Definition validate_sql (sql : string) (mode : SecurityMode) : bool :=
  let sql_upper := normalize sql in
  let first_keyword := _extract_first_keyword sql_upper in
  match mode with
  | READONLY => _validate_readonly first_keyword sql_upper
  | LIMITED_WRITE => _validate_limited_write first_keyword sql_upper
  | FULL_ACCESS => true
  end.

Definition get_error_message (sql : string) (mode : SecurityMode)
  : string :=
  let sql_upper := normalize sql in
  let first_keyword := _extract_first_keyword sql_upper in
  match mode with
  | READONLY =>
      if mem first_keyword WRITE_OPERATIONS then
        "只读模式下禁止写入操作: " ++ first_keyword
      else if mem first_keyword DANGEROUS_OPERATIONS then
        "只读模式下禁止危险操作: " ++ first_keyword
      else
        "只读模式下不支持的操作: " ++ first_keyword
  | LIMITED_WRITE =>
      if mem first_keyword DANGEROUS_OPERATIONS then
        "限制写入模式下禁止危险操作: " ++ first_keyword
      else
        "限制写入模式下不支持的操作: " ++ first_keyword
  | FULL_ACCESS => "操作被安全策略禁止"
  end.

End SQLValidator.

(** ** The access mediator: class [KingbaseDatabase] *)

(** Values of a result row, and the row mappings the cursor gives
    ([RealDictCursor]: column name to value, in column order). *)
Inductive value :=
| VInt (z : Z)
| VStr (s : string)
| VBool (b : bool)
| VNone.

Definition row := list (string * value).

Inductive exn :=
| ValueError (msg : string)
| Psycopg2Error (msg : string).

Inductive res (A : Type) :=
| Ok (a : A)
| Raise (e : exn).
Arguments Ok {A} a.
Arguments Raise {A} e.

(** What the logger is given; the texts of the source are formatted from
    these data. *)
Inductive log_record :=
| LogQuery (mode : SecurityMode) (sql_prefix : string)
| LogReadonlySession
| LogConnected (mode : SecurityMode)
| LogConnectionError (e : string)
| LogClosed
| LogTruncated (limit : Z)
| LogReturned (n : nat)
| LogAffected (n : Z)
| LogSqlFailed (e : string).

(** What one call does to the outside, in order. *)
Inductive event :=
| EConnect
| EExecute (sql : string) (params : option (list value))
| EFetchAll
| ECommit
| EClose
| ELog (r : log_record).

(** The database behind [psycopg2], as a transition system on a state
    of the caller's choice: an operation answers with a value or with
    the text of a [psycopg2.Error]. *)
Record driver (S : Type) := {
  db_connect : S -> (string + unit) * S;
  db_execute : string -> option (list value) -> S -> (string + unit) * S;
  db_fetchall : S -> (string + list row) * S;
  db_commit : S -> (string + unit) * S;
  db_rowcount : S -> Z;
  db_close : S -> S
}.
Arguments db_connect {S} d.
Arguments db_execute {S} d.
Arguments db_fetchall {S} d.
Arguments db_commit {S} d.
Arguments db_rowcount {S} d.
Arguments db_close {S} d.

Record world (S : Type) := {
  db : S;
  trace : list event  (* oldest first *)
}.
Arguments db {S} w.
Arguments trace {S} w.
Arguments Build_world {S} db trace.

(** State and exceptions. *)
Definition M (S A : Type) : Type := world S -> res A * world S.

Definition ret {S A} (a : A) : M S A := fun w => (Ok a, w).

Definition raise {S A} (e : exn) : M S A := fun w => (Raise e, w).

Definition bind {S A B} (m : M S A) (k : A -> M S B) : M S B :=
  fun w =>
    match m w with
    | (Ok a, w') => k a w'
    | (Raise e, w') => (Raise e, w')
    end.

Declare Scope py_scope.
Delimit Scope py_scope with py.
Notation "x <- m ;; k" := (bind m (fun x => k))
  (at level 61, m at next level, right associativity) : py_scope.
Notation "m ;; k" := (bind m (fun _ => k))
  (at level 61, right associativity) : py_scope.

(** [try: m except psycopg2.Error as e: h e] *)
Definition try_except_db {S A} (m : M S A) (h : string -> M S A) : M S A :=
  fun w =>
    match m w with
    | (Raise (Psycopg2Error e), w') => h e w'
    | other => other
    end.

(** [try: m except Exception as e: h e] *)
Definition try_except {S A} (m : M S A) (h : exn -> M S A) : M S A :=
  fun w =>
    match m w with
    | (Raise e, w') => h e w'
    | other => other
    end.

(** [try: m finally: f] *)
Definition try_finally {S A} (m : M S A) (f : M S unit) : M S A :=
  fun w =>
    match m w with
    | (r, w') =>
        match f w' with
        | (Ok _, w'') => (r, w'')
        | (Raise e, w'') => (Raise e, w'')
        end
    end.

Definition emit {S} (e : event) : M S unit :=
  fun w => (Ok tt, Build_world (db w) (trace w ++ [e])).

Definition log {S} (r : log_record) : M S unit := emit (ELog r).

(** A call of the driver: it is recorded, the database moves, and a
    failure of the database is raised as [psycopg2.Error].  What the
    client library itself may raise before the call reaches the database
    is not modelled. *)
Definition call {S A} (e : event) (op : S -> (string + A) * S) : M S A :=
  fun w =>
    let (r, d) := op (db w) in
    let w' := Build_world d (trace w ++ [e]) in
    match r with
    | inr a => (Ok a, w')
    | inl msg => (Raise (Psycopg2Error msg), w')
    end.

(** [xs[:n]] *)
Definition slice_to {A} (n : Z) (xs : list A) : list A :=
  if (0 <=? n)%Z then firstn (Z.to_nat n) xs
  else firstn (Z.to_nat (Z.of_nat (List.length xs) + n)) xs.

Module KingbaseDatabase.
Import PyStr.

Section Mediator.
Context {S : Type}.
Variable drv : driver S.
(** [self.config] *)
Variable config : Config.
(** [str(self.config.allowed_schemas)]: the text Python gives for the
    collection, whose type the absent module [config] declares. *)
Variable str_of_schemas : list string -> string.

Local Open Scope py_scope.

Definition connect : M S unit := call EConnect (db_connect drv).

Definition cur_execute (sql : string) (params : option (list value))
  : M S unit :=
  call (EExecute sql params) (db_execute drv sql params).

Definition cur_fetchall : M S (list row) :=
  call EFetchAll (db_fetchall drv).

Definition conn_commit : M S unit := call ECommit (db_commit drv).

Definition cur_rowcount : M S Z := fun w => (Ok (db_rowcount drv (db w)), w).

Definition conn_close : M S unit :=
  fun w => (Ok tt, Build_world (db_close drv (db w)) (trace w ++ [EClose])).

(** What [get_connection] does with a fresh connection before it
    hands it to the body of the [with] statement. *)
Definition configure_session : M S unit :=
  (if is_readonly_mode config then
     cur_execute "SET default_transaction_read_only = on;" None ;;
     cur_execute "SET transaction_read_only = on;" None ;;
     log LogReadonlySession
   else ret tt) ;;
  conn_commit ;;
  log (LogConnected (security_mode config)).

(** The context manager [get_connection], around the body of the
    [with] statement. *)
Definition get_connection {A} (body : M S A) : M S A :=
  let on_error (e : string) : M S A :=
    log (LogConnectionError e) ;; raise (Psycopg2Error e) in
  fun w =>
    match connect w with
    | (Raise e, w') =>
        (* [conn] is still [None]: nothing to close *)
        try_except_db (raise e) on_error w'
    | (Ok _, w') =>
        try_finally
          (try_except_db (configure_session ;; body) on_error)
          (conn_close ;; log LogClosed)
          w'
    end.

Definition retrieval_prefixes : list string :=
  ["SELECT"; "WITH"; "SHOW"; "DESCRIBE"; "EXPLAIN"].

Definition status_record (affected_rows : Z) : row :=
  [("affected_rows", VInt affected_rows); ("status", VStr "success")].

Definition execute_query (sql : string) (params : option (list value))
  : M S (list row) :=
  if negb (SQLValidator.validate_sql sql (security_mode config)) then
    let error_msg :=
      SQLValidator.get_error_message sql (security_mode config) in
    raise (ValueError ("SQL操作被安全策略禁止: " ++ error_msg))
  else
    (if enable_query_log config then
       log (LogQuery (security_mode config) (substring 0 200 sql))
     else ret tt) ;;
    get_connection
      (try_except_db
         (cur_execute sql params ;;
          if startswith_any retrieval_prefixes (strip (upper sql)) then
            results <- cur_fetchall ;;
            results <-
              (if (max_result_rows config
                     <? Z.of_nat (List.length results))%Z then
                 log (LogTruncated (max_result_rows config)) ;;
                 ret (slice_to (max_result_rows config) results)
               else ret results) ;;
            log (LogReturned (List.length results)) ;;
            ret (map (fun r : row => r) results)
          else
            conn_commit ;;
            affected_rows <- cur_rowcount ;;
            log (LogAffected affected_rows) ;;
            ret [status_record affected_rows])
         (fun e => log (LogSqlFailed e) ;; raise (Psycopg2Error e))).

Definition execute_safe_query (sql : string)
  (params : option (list value)) : M S (list row) :=
  if negb (SQLValidator.validate_sql sql READONLY) then
    raise (ValueError "系统查询必须是只读操作")
  else execute_query sql params.

Definition test_sql : string := "
                SELECT schema_name 
                FROM information_schema.schemata 
                WHERE schema_name = %s;
                ".

Definition _is_schema_allowed (schema : string) : M S bool :=
  if is_all_schemas_allowed config then ret true
  else if is_auto_discover_schemas config then
    try_except
      (result <- execute_safe_query test_sql (Some [VStr schema]) ;;
       ret (0 <? List.length result)%nat)
      (fun _ => ret false)
  else ret (mem schema (allowed_schemas config)).

Definition _get_allowed_schemas_display : string :=
  if is_all_schemas_allowed config then "所有模式(*)"
  else if is_auto_discover_schemas config then "自动发现(auto)"
  else str_of_schemas (allowed_schemas config).

Definition tables_sql : string := "
        SELECT 
            schemaname,
            tablename,
            tableowner,
            hasindexes,
            hasrules,
            hastriggers,
            rowsecurity
        FROM pg_tables 
        WHERE schemaname = %s
        ORDER BY tablename;
        ".

Definition get_all_tables (schema : string) : M S (list row) :=
  allowed <- _is_schema_allowed schema ;;
  if negb allowed then
    let allowed_schemas := _get_allowed_schemas_display in
    raise (ValueError ("不允许访问模式: " ++ schema
                       ++ "，允许的模式: " ++ allowed_schemas))
  else execute_safe_query tables_sql (Some [VStr schema]).

(** The other catalog lookups of the class.  Their own calls of the
    logger write to the log only and are not recorded in the trace. *)

Definition schemas_sql : string := "
        SELECT schema_name as schemaname
        FROM information_schema.schemata 
        WHERE schema_name NOT IN ('information_schema', 'pg_catalog', 'pg_toast', 'pg_temp_1', 'pg_toast_temp_1')
        ORDER BY schema_name;
        ".

Definition get_available_schemas : M S (list row) :=
  execute_safe_query schemas_sql None.

Definition sql_with_comments : string := "
            SELECT 
                c.column_name,
                c.data_type,
                c.character_maximum_length,
                c.numeric_precision,
                c.numeric_scale,
                c.is_nullable,
                c.column_default,
                c.ordinal_position,
                CASE 
                    WHEN pk.column_name IS NOT NULL THEN 'YES'
                    ELSE 'NO'
                END as is_primary_key,
                COALESCE(
                    (SELECT pg_catalog.col_description(pgc.oid, c.ordinal_position)
                     FROM pg_catalog.pg_class pgc
                     INNER JOIN pg_catalog.pg_namespace pgn ON pgn.oid = pgc.relnamespace
                     WHERE pgc.relname = c.table_name AND pgn.nspname = c.table_schema),
                    ''
                ) as column_comment
            FROM information_schema.columns c
            LEFT JOIN (
                SELECT ku.column_name
                FROM information_schema.table_constraints tc
                INNER JOIN information_schema.key_column_usage ku
                    ON tc.constraint_name = ku.constraint_name
                    AND tc.table_schema = ku.table_schema
                WHERE tc.constraint_type = 'PRIMARY KEY'
                    AND tc.table_name = %s
                    AND tc.table_schema = %s
            ) pk ON c.column_name = pk.column_name
            WHERE c.table_name = %s
                AND c.table_schema = %s
            ORDER BY c.ordinal_position;
            ".

Definition sql_basic : string := "
        SELECT 
            c.column_name,
            c.data_type,
            c.character_maximum_length,
            c.numeric_precision,
            c.numeric_scale,
            c.is_nullable,
            c.column_default,
            c.ordinal_position,
            CASE 
                WHEN pk.column_name IS NOT NULL THEN 'YES'
                ELSE 'NO'
            END as is_primary_key,
            '' as column_comment
        FROM information_schema.columns c
        LEFT JOIN (
            SELECT ku.column_name
            FROM information_schema.table_constraints tc
            INNER JOIN information_schema.key_column_usage ku
                ON tc.constraint_name = ku.constraint_name
                AND tc.table_schema = ku.table_schema
            WHERE tc.constraint_type = 'PRIMARY KEY'
                AND tc.table_name = %s
                AND tc.table_schema = %s
        ) pk ON c.column_name = pk.column_name
        WHERE c.table_name = %s
            AND c.table_schema = %s
        ORDER BY c.ordinal_position;
        ".

(** [if result:] for a list *)
Definition truthy_list {A} (xs : list A) : bool :=
  match xs with [] => false | _ :: _ => true end.

Definition get_table_structure (table_name schema : string)
  : M S (list row) :=
  allowed <- _is_schema_allowed schema ;;
  if negb allowed then
    let allowed_schemas := _get_allowed_schemas_display in
    raise (ValueError ("不允许访问模式: " ++ schema
                       ++ "，允许的模式: " ++ allowed_schemas))
  else
    let params :=
      Some [VStr table_name; VStr schema; VStr table_name; VStr schema] in
    (* [Some result]: the [try] block returned [result];
       [None]: it fell through or its exception was caught *)
    returned <-
      try_except
        (result <- execute_safe_query sql_with_comments params ;;
         if truthy_list result then ret (Some result) else ret None)
        (fun _ => ret None) ;;
    match returned with
    | Some result => ret result
    | None => execute_safe_query sql_basic params
    end.

Definition indexes_sql : string := "
            SELECT 
                indexname,
                indexdef,
                CASE 
                    WHEN indexdef LIKE '%UNIQUE%' THEN 'YES'
                    ELSE 'NO'
                END as is_unique
            FROM pg_indexes 
            WHERE tablename = %s 
                AND schemaname = %s
            ORDER BY indexname;
            ".

Definition get_table_indexes (table_name schema : string)
  : M S (list row) :=
  allowed <- _is_schema_allowed schema ;;
  if negb allowed then
    let allowed_schemas := _get_allowed_schemas_display in
    raise (ValueError ("不允许访问模式: " ++ schema
                       ++ "，允许的模式: " ++ allowed_schemas))
  else
    try_except
      (execute_safe_query indexes_sql (Some [VStr table_name; VStr schema]))
      (fun _ => ret []).

Definition constraints_sql : string := "
            SELECT 
                tc.constraint_name,
                tc.constraint_type,
                kcu.column_name,
                CASE 
                    WHEN tc.constraint_type = 'FOREIGN KEY' THEN
                        ccu.table_schema||'.'||ccu.table_name||'.'||ccu.column_name
                    ELSE NULL
                END as foreign_key_references
            FROM information_schema.table_constraints tc
            LEFT JOIN information_schema.key_column_usage kcu
                ON tc.constraint_name = kcu.constraint_name
                AND tc.table_schema = kcu.table_schema
            LEFT JOIN information_schema.constraint_column_usage ccu
                ON ccu.constraint_name = tc.constraint_name
                AND ccu.table_schema = tc.table_schema
            WHERE tc.table_name = %s
                AND tc.table_schema = %s
            ORDER BY tc.constraint_type, tc.constraint_name;
            ".

Definition get_table_constraints (table_name schema : string)
  : M S (list row) :=
  allowed <- _is_schema_allowed schema ;;
  if negb allowed then
    let allowed_schemas := _get_allowed_schemas_display in
    raise (ValueError ("不允许访问模式: " ++ schema
                       ++ "，允许的模式: " ++ allowed_schemas))
  else
    try_except
      (execute_safe_query constraints_sql
         (Some [VStr table_name; VStr schema]))
      (fun _ => ret []).

(** [row[key]] of a row mapping, when the key is there. *)
Fixpoint dict_get (key : string) (r : row) : option value :=
  match r with
  | [] => None
  | (k, v) :: r' => if String.eqb k key then Some v else dict_get key r'
  end.

(** [v == 1]: [True] counts as [1]. *)
Definition equals_one (v : value) : bool :=
  match v with
  | VInt z => (z =? 1)%Z
  | VBool b => b
  | _ => false
  end.

(** A missing key raises [KeyError] inside the [try] block; the handler
    catches it like every other exception and answers [False]. *)
Definition test_connection : M S bool :=
  try_except
    (result <- execute_safe_query "SELECT 1 as test_connection;" None ;;
     match result with
     | [] => ret false
     | first :: _ =>
         match dict_get "test_connection" first with
         | Some v => ret (equals_one v)
         | None => ret false
         end
     end)
    (fun _ => ret false).

End Mediator.

End KingbaseDatabase.

(** ** Notions the specification uses *)

Module Spec.
Import PyStr Re.

(** The leading keyword of a statement: the first blank-delimited token
    of its upper-cased, trimmed text. *)
Definition leading_keyword (sql : string) : string :=
  SQLValidator._extract_first_keyword (SQLValidator.normalize sql).

(** [k] occurs in [t] as a plain substring. *)
Definition occurs_in (k t : string) : Prop :=
  exists pre post, t = pre ++ k ++ post.

Definition all_blank (s : string) : bool :=
  forallb is_space (list_ascii_of_string s).

Definition all_word (s : string) : bool :=
  forallb is_word (list_ascii_of_string s).

(** No word character right before the end of [pre], resp. at the
    start of [post]: a word that lies between them is a whole word. *)
Definition ends_outside_word (pre : string) : Prop :=
  word_opt (last_of None pre) = false.

Definition starts_outside_word (post : string) : Prop :=
  word_opt (head post) = false.

Definition starts_with_word_char (w : string) : Prop :=
  exists c r, w = String c r /\ is_word c = true.

Definition ends_with_word_char (w : string) : Prop :=
  forall prev, word_opt (last_of prev w) = true.

(** The words [w1 w2], separated by blanks, occur in [t] as whole
    words. *)
Definition whole_word_phrase (w1 w2 t : string) : Prop :=
  exists pre gap post,
    t = pre ++ w1 ++ gap ++ w2 ++ post /\
    gap <> "" /\ all_blank gap = true /\
    ends_outside_word pre /\ starts_outside_word post.

(** [UPDATE <ident> SET] occurs in [t] as whole words. *)
Definition update_set_phrase (t : string) : Prop :=
  exists pre gap1 ident gap2 post,
    t = pre ++ "UPDATE" ++ gap1 ++ ident ++ gap2 ++ "SET" ++ post /\
    gap1 <> "" /\ all_blank gap1 = true /\
    ident <> "" /\ all_word ident = true /\
    gap2 <> "" /\ all_blank gap2 = true /\
    ends_outside_word pre /\ starts_outside_word post.

(** One of the seven phrases occurs in [t]. *)
Definition embedded_dangerous_clause (t : string) : Prop :=
  whole_word_phrase "DROP" "TABLE" t \/
  whole_word_phrase "TRUNCATE" "TABLE" t \/
  whole_word_phrase "DELETE" "FROM" t \/
  whole_word_phrase "INSERT" "INTO" t \/
  update_set_phrase t \/
  whole_word_phrase "CREATE" "TABLE" t \/
  whole_word_phrase "ALTER" "TABLE" t.

(** What it means for a pattern to match at the start of [s], read off
    the pattern item by item. *)
Fixpoint matches (p : list item) (prev : option ascii) (s : string) : Prop :=
  match p with
  | [] => True
  | Bnd :: p' => boundary prev s = true /\ matches p' prev s
  | Lit l :: p' => exists s', s = l ++ s' /\ matches p' (last_of prev l) s'
  | Plus k :: p' =>
      exists c run s',
        s = String c run ++ s' /\
        forallb (in_cls k) (list_ascii_of_string (String c run)) = true /\
        matches p' (last_of (Some c) run) s'
  end.

(** The pattern matches somewhere in [t]. *)
Definition found (p : list item) (t : string) : Prop :=
  exists pre post, t = pre ++ post /\ matches p (last_of None pre) post.

(** A database that accepts every connection, statement and commit. *)
Definition accepts_all {S} (drv : driver S) : Prop :=
  (forall s, fst (db_connect drv s) = inr tt) /\
  (forall q p s, fst (db_execute drv q p s) = inr tt) /\
  (forall s, fst (db_commit drv s) = inr tt).

(** A database whose cursor gives [rows] to [fetchall]. *)
Definition fetches {S} (drv : driver S) (rows : list row) : Prop :=
  forall s, fst (db_fetchall drv s) = inr rows.

(** A database whose cursor reports [n] affected rows. *)
Definition counts {S} (drv : driver S) (n : Z) : Prop :=
  forall s, db_rowcount drv s = n.

(** What the row ceiling leaves of the fetched rows. *)
Definition within_ceiling (limit : Z) (rows : list row) : list row :=
  if (limit <? Z.of_nat (List.length rows))%Z
  then slice_to limit rows else rows.

(** How a denial names the mode, and the three kinds of denial. *)
Definition mode_phrase (m : SecurityMode) : string :=
  match m with
  | READONLY => "只读模式下"
  | LIMITED_WRITE => "限制写入模式下"
  | FULL_ACCESS => ""
  end.

Definition write_forbidden : string := "禁止写入操作".
Definition dangerous_forbidden : string := "禁止危险操作".
Definition unsupported : string := "不支持的操作".

(** A database for the examples: it accepts everything, counts the
    operations it has served, gives [rows] to [fetchall] and reports
    [n] affected rows. *)
Definition scripted (rows : list row) (n : Z) : driver nat := {|
  db_connect := fun s => (inr tt, Datatypes.S s);
  db_execute := fun _ _ s => (inr tt, Datatypes.S s);
  db_fetchall := fun s => (inr rows, Datatypes.S s);
  db_commit := fun s => (inr tt, Datatypes.S s);
  db_rowcount := fun _ => n;
  db_close := fun s => s
|}.

(** A database that cannot be reached. *)
Definition unreachable : driver unit := {|
  db_connect := fun s => (inl "connection refused", s);
  db_execute := fun _ _ s => (inl "no connection", s);
  db_fetchall := fun s => (inl "no connection", s);
  db_commit := fun s => (inl "no connection", s);
  db_rowcount := fun _ => (-1)%Z;
  db_close := fun s => s
|}.

Definition start {S} (s : S) : world S := Build_world s [].

Definition numbered (n : nat) : list row :=
  map (fun i => [("id", VInt (Z.of_nat i))]) (seq 1 n).

Definition config_of (m : SecurityMode) (p : SchemaAccessPolicy)
  (limit : Z) : Config :=
  {| security_mode := m; schema_access := p;
     max_result_rows := limit; enable_query_log := true |}.

(** The text is made of 7-bit characters only: the range on which
    [PyStr] and [Re] are Python's [str] methods and [re] classes. *)
Definition ascii_text (s : string) : bool :=
  forallb (fun c => (nat_of_ascii c <? 128)%nat) (list_ascii_of_string s).

End Spec.

(** ** The document generator: class [DocumentGenerator]

    Rows hold integers, strings, booleans and [None].  [str(v)],
    [bool(v)] and [==] are Python's on these values; [tabulate] is the
    function of the library of that name, taken as it is. *)

Module DocumentGenerator.

Definition nl : string := String (ascii_of_nat 10) "".

(** [str(v)], as an f-string formats a value *)
Definition py_str (v : value) : string :=
  match v with
  | VInt z => NilEmpty.string_of_int (Z.to_int z)
  | VStr s => s
  | VBool true => "True"
  | VBool false => "False"
  | VNone => "None"
  end.

(** [str(n)] for a length *)
Definition str_of_len (n : nat) : string :=
  NilEmpty.string_of_uint (Nat.to_uint n).

(** Truth value of [v] in a condition *)
Definition truthy (v : value) : bool :=
  match v with
  | VInt z => negb (z =? 0)%Z
  | VStr s => negb (PyStr.is_empty s)
  | VBool b => b
  | VNone => false
  end.

(** [a == b]; [True] and [False] count as [1] and [0], also as keys of a
    dict. *)
Definition py_eq (a b : value) : bool :=
  match a, b with
  | VInt x, VInt y => (x =? y)%Z
  | VStr x, VStr y => String.eqb x y
  | VBool x, VBool y => Bool.eqb x y
  | VNone, VNone => true
  | VInt x, VBool y => (x =? (if y then 1 else 0))%Z
  | VBool x, VInt y => ((if x then 1 else 0) =? y)%Z
  | _, _ => false
  end.

(** [d.get(key, default)] and [d.get(key)] *)
Definition get (d : row) (key : string) (default : value) : value :=
  match KingbaseDatabase.dict_get key d with
  | Some v => v
  | None => default
  end.

Definition get_none (d : row) (key : string) : value := get d key VNone.

(** [v or ''] *)
Definition or_empty (v : value) : value :=
  if truthy v then v else VStr "".

(** A value or the [TypeError] that [+=] raises on it. *)
Inductive outcome (A : Type) :=
| Returned (a : A)
| TypeError.
Arguments Returned {A} a.
Arguments TypeError {A}.

(** [data_type += suffix], where [suffix] is a string *)
Definition add_suffix (data_type : value) (suffix : string) : outcome value :=
  match data_type with
  | VStr s => Returned (VStr (s ++ suffix))
  | _ => TypeError
  end.

(** [type_mapping.get(constraint_type, constraint_type)] *)
Definition _get_constraint_type_name (constraint_type : value) : value :=
  match constraint_type with
  | VStr "PRIMARY KEY" => VStr "主键约束"
  | VStr "FOREIGN KEY" => VStr "外键约束"
  | VStr "UNIQUE" => VStr "唯一约束"
  | VStr "CHECK" => VStr "检查约束"
  | VStr "NOT NULL" => VStr "非空约束"
  | other => other
  end.

(** One round of the loop of [generate_sql_create_statement]: the
    definition of the column [col]. *)
Definition column_definition (col : row) : outcome string :=
  let col_def := "    " ++ py_str (get col "column_name" (VStr "")) in
  let data_type := get col "data_type" (VStr "") in
  let typed :=
    if truthy (get_none col "character_maximum_length") then
      add_suffix data_type
        ("(" ++ py_str (get_none col "character_maximum_length") ++ ")")
    else if truthy (get_none col "numeric_precision")
            && truthy (get_none col "numeric_scale") then
      add_suffix data_type
        ("(" ++ py_str (get_none col "numeric_precision") ++ ","
             ++ py_str (get_none col "numeric_scale") ++ ")")
    else Returned data_type in
  match typed with
  | TypeError => TypeError
  | Returned data_type =>
      let col_def := col_def ++ " " ++ py_str data_type in
      let col_def :=
        if py_eq (get_none col "is_nullable") (VStr "NO")
        then col_def ++ " NOT NULL" else col_def in
      let col_def :=
        if truthy (get_none col "column_default")
        then col_def ++ " DEFAULT " ++ py_str (get_none col "column_default")
        else col_def in
      let col_def :=
        if truthy (get_none col "column_comment")
        then col_def ++ " -- " ++ py_str (get_none col "column_comment")
        else col_def in
      Returned col_def
  end.

(** The loop: the definitions in the order of the columns, or the
    error of the first column that raises. *)
Fixpoint column_definitions (structure : list row) : outcome (list string) :=
  match structure with
  | [] => Returned []
  | col :: rest =>
      match column_definition col with
      | TypeError => TypeError
      | Returned col_def =>
          match column_definitions rest with
          | TypeError => TypeError
          | Returned columns => Returned (col_def :: columns)
          end
      end
  end.

(** [constraint_types] after one more constraint: it goes to the end of
    the list of its type, a new type to the end of the dict. *)
Fixpoint add_constraint (c_type : value) (constraint : row)
  (constraint_types : list (value * list row)) : list (value * list row) :=
  match constraint_types with
  | [] => [(c_type, [constraint])]
  | (k, c_list) :: others =>
      if py_eq k c_type then (k, (c_list ++ [constraint])%list) :: others
      else (k, c_list) :: add_constraint c_type constraint others
  end.

(** The dict [constraint_types] that [generate_table_structure_doc]
    builds, with its keys in insertion order. *)
Definition group_constraints (constraints : list row)
  : list (value * list row) :=
  fold_left
    (fun constraint_types constraint =>
       add_constraint (get constraint "constraint_type" (VStr ""))
         constraint constraint_types)
    constraints [].

Section Generator.
(** [self.timestamp] *)
Variable timestamp : string.
(** [tabulate(rows, headers=headers, tablefmt='pipe')] *)
Variable tabulate : list (list value) -> list string -> string.

Definition generate_sql_create_statement (table_name : string)
  (structure : list row) : outcome string :=
  let sql := "-- 表结构参考SQL (仅供参考，不可执行)" ++ nl in
  let sql := sql ++ "-- 表名: " ++ table_name ++ nl in
  let sql := sql ++ "-- 生成时间: " ++ timestamp ++ nl ++ nl in
  let sql := sql ++ "CREATE TABLE " ++ table_name ++ " (" ++ nl in
  match column_definitions structure with
  | TypeError => TypeError
  | Returned columns =>
      let sql := sql ++ String.concat ("," ++ nl) columns in
      let sql := sql ++ nl ++ ");" ++ nl ++ nl in
      let sql :=
        sql ++ "-- 注意: 此SQL仅为结构参考，实际建表请根据业务需求调整" ++ nl in
      Returned sql
  end.

Definition yes_no (v : value) : value :=
  if py_eq v (VStr "YES") then VStr "是" else VStr "否".

Definition structure_row (col : row) : list value :=
  [ get col "ordinal_position" (VStr "");
    VStr ("`" ++ py_str (get col "column_name" (VStr "")) ++ "`");
    get col "data_type" (VStr "");
    or_empty (get col "character_maximum_length" (VStr ""));
    or_empty (get col "numeric_precision" (VStr ""));
    or_empty (get col "numeric_scale" (VStr ""));
    yes_no (get_none col "is_nullable");
    or_empty (get col "column_default" (VStr ""));
    yes_no (get_none col "is_primary_key");
    or_empty (get col "column_comment" (VStr "")) ].

Definition index_section (idx : row) : string :=
  "### `" ++ py_str (get idx "indexname" (VStr "")) ++ "`" ++ nl ++ nl
  ++ "**类型**: "
  ++ (if py_eq (get_none idx "is_unique") (VStr "YES")
      then "唯一索引" else "普通索引") ++ nl ++ nl
  ++ "**定义**: " ++ nl ++ "```sql" ++ nl
  ++ py_str (get idx "indexdef" (VStr "")) ++ nl ++ "```" ++ nl ++ nl.

Definition constraint_line (constraint : row) : string :=
  "- **" ++ py_str (get constraint "constraint_name" (VStr "")) ++ "**: "
  ++ "字段 `" ++ py_str (get constraint "column_name" (VStr "")) ++ "`"
  ++ (if truthy (get_none constraint "foreign_key_references")
      then " → 引用 `"
           ++ py_str (get_none constraint "foreign_key_references") ++ "`"
      else "")
  ++ nl.

Definition constraint_section (group : value * list row) : string :=
  "### " ++ py_str (_get_constraint_type_name (fst group)) ++ nl ++ nl
  ++ String.concat "" (map constraint_line (snd group)) ++ nl.

Definition generate_table_structure_doc (table_name : string)
  (structure indexes constraints : list row) : string :=
  let doc :=
    "# 表结构设计文档: " ++ table_name ++ nl ++ nl
    ++ "**生成时间**: " ++ timestamp ++ "  " ++ nl
    ++ "**数据库**: 人大金仓 (KingbaseES)  " ++ nl
    ++ "**模式**: HR_BASE" ++ nl ++ nl
    ++ "---" ++ nl ++ nl
    ++ "## 表基本信息" ++ nl ++ nl
    ++ "**表名**: `" ++ table_name ++ "`  " ++ nl
    ++ "**字段数量**: " ++ str_of_len (List.length structure) ++ "  " ++ nl
    ++ "**索引数量**: " ++ str_of_len (List.length indexes) ++ "  " ++ nl
    ++ "**约束数量**: " ++ str_of_len (List.length constraints) ++ nl ++ nl
    ++ "---" ++ nl ++ nl
    ++ "## 字段结构" ++ nl ++ nl in
  let doc :=
    if KingbaseDatabase.truthy_list structure then
      let headers := ["序号"; "字段名"; "数据类型"; "长度"; "精度"; "标度";
                      "可空"; "默认值"; "主键"; "注释"] in
      let rows := map structure_row structure in
      let table_md := tabulate rows headers in
      doc ++ table_md ++ nl ++ nl ++ "---" ++ nl ++ nl
    else doc in
  let doc := doc ++ "## 索引信息" ++ nl ++ nl in
  let doc :=
    if KingbaseDatabase.truthy_list indexes
    then doc ++ String.concat "" (map index_section indexes)
    else doc ++ "暂无索引信息" ++ nl ++ nl in
  let doc := doc ++ "---" ++ nl ++ nl in
  let doc := doc ++ "## 约束信息" ++ nl ++ nl in
  let doc :=
    if KingbaseDatabase.truthy_list constraints then
      let constraint_types := group_constraints constraints in
      doc ++ String.concat "" (map constraint_section constraint_types)
    else doc ++ "暂无约束信息" ++ nl ++ nl in
  let doc := doc ++ "---" ++ nl ++ nl in
  let doc := doc ++ "*文档生成时间: " ++ timestamp ++ "*" ++ nl in
  let doc := doc ++ "*由 Kingbase MCP 服务自动生成*" ++ nl in
  doc.

End Generator.

End DocumentGenerator.

(** ** Notions for the runs of the mediator *)

Module Notions.

Definition is_close (e : event) : bool :=
  match e with EClose => true | _ => false end.

(** How many connections a stretch of events closes. *)
Definition closes (t : list event) : nat := List.length (filter is_close t).

Definition is_connect (e : event) : bool :=
  match e with EConnect => true | _ => false end.

(** How many times a stretch of events connects to the database. *)
Definition opens (t : list event) : nat := List.length (filter is_connect t).

(** A stretch of events that neither opens nor closes a connection. *)
Definition calm (t : list event) : Prop := closes t = 0 /\ opens t = 0.

(** [m] opens and closes no connection and raises nothing but
    [psycopg2.Error]. *)
Definition quiet {S A} (m : M S A) : Prop :=
  forall w,
    (exists t, trace (snd (m w)) = (trace w ++ t)%list /\ calm t) /\
    (forall msg, fst (m w) <> Raise (ValueError msg)).

(** Whatever [m] returns satisfies [Q]. *)
Definition returns {S A} (m : M S A) (Q : A -> Prop) : Prop :=
  forall w a, fst (m w) = Ok a -> Q a.

(** A database on which the session of the configuration [c] can always
    be opened and set up. *)
Definition session_ok {S} (drv : driver S) (c : Config) : Prop :=
  (forall s, fst (db_connect drv s) = inr tt) /\
  (forall s, fst (db_commit drv s) = inr tt) /\
  (is_readonly_mode c = true ->
   forall s,
     fst (db_execute drv "SET default_transaction_read_only = on;" None s)
     = inr tt /\
     fst (db_execute drv "SET transaction_read_only = on;" None s) = inr tt).

(** The database accepts the statement [sql], resp. rejects it with the
    message [e]. *)
Definition serves {S} (drv : driver S) (sql : string) : Prop :=
  forall p s, fst (db_execute drv sql p s) = inr tt.

Definition rejects {S} (drv : driver S) (sql e : string) : Prop :=
  forall p s, fst (db_execute drv sql p s) = inl e.

(** The events of a call before the statement is sent. *)
Definition query_log (c : Config) (sql : string) : list event :=
  if enable_query_log c
  then [ELog (LogQuery (security_mode c) (substring 0 200 sql))] else [].

Definition pragmas (c : Config) : list event :=
  if is_readonly_mode c
  then [EExecute "SET default_transaction_read_only = on;" None;
        EExecute "SET transaction_read_only = on;" None;
        ELog LogReadonlySession]
  else [].

Definition session_events (c : Config) : list event :=
  ([EConnect] ++ pragmas c
     ++ [ECommit; ELog (LogConnected (security_mode c))])%list.

(** The body of the [with] statement of [execute_query]: what is done
    on the open session. *)
Definition statement {S} (drv : driver S) (c : Config) (sql : string)
  (params : option (list value)) : M S (list row) :=
  try_except_db
    (bind (KingbaseDatabase.cur_execute drv sql params) (fun _ =>
       if PyStr.startswith_any KingbaseDatabase.retrieval_prefixes
            (PyStr.strip (PyStr.upper sql)) then
         bind (KingbaseDatabase.cur_fetchall drv) (fun results =>
           bind (if (max_result_rows c <? Z.of_nat (List.length results))%Z
                 then bind (log (LogTruncated (max_result_rows c)))
                        (fun _ => ret (slice_to (max_result_rows c) results))
                 else ret results) (fun results =>
             bind (log (LogReturned (List.length results))) (fun _ =>
               ret (map (fun r : row => r) results))))
       else
         bind (KingbaseDatabase.conn_commit drv) (fun _ =>
           bind (KingbaseDatabase.cur_rowcount drv) (fun affected_rows =>
             bind (log (LogAffected affected_rows)) (fun _ =>
               ret [KingbaseDatabase.status_record affected_rows])))))
    (fun e => bind (log (LogSqlFailed e)) (fun _ => raise (Psycopg2Error e))).

(** The schema gate lets [schema] through without asking the
    database. *)
Definition statically_allowed (c : Config) (schema : string) : Prop :=
  match schema_access c with
  | AllowAll => True
  | AllowList names => In schema names
  | AutoDiscover => False
  end.

(** What [get_all_tables] and its siblings raise for a schema the gate
    turns down. *)
Definition schema_denied (c : Config) (str_of_schemas : list string -> string)
  (schema : string) : exn :=
  ValueError ("不允许访问模式: " ++ schema ++ "，允许的模式: "
              ++ KingbaseDatabase._get_allowed_schemas_display
                   c str_of_schemas).

(** A statement that passes both checks of [execute_safe_query] in
    every mode and is fetched from. *)
Definition safe_retrieval (sql : string) : Prop :=
  (forall mode, SQLValidator.validate_sql sql mode = true) /\
  PyStr.startswith_any KingbaseDatabase.retrieval_prefixes
    (SQLValidator.normalize sql) = true.

(** The column gets a length or a precision and scale appended to its
    data type. *)
Definition needs_suffix (col : row) : bool :=
  DocumentGenerator.truthy
    (DocumentGenerator.get_none col "character_maximum_length")
  || (DocumentGenerator.truthy
        (DocumentGenerator.get_none col "numeric_precision")
      && DocumentGenerator.truthy
           (DocumentGenerator.get_none col "numeric_scale")).

Definition is_text (v : value) : bool :=
  match v with VStr _ => true | _ => false end.

(** The type a constraint is filed under. *)
Definition type_of (constraint : row) : value :=
  DocumentGenerator.get constraint "constraint_type" (VStr "").

(** Every group of constraints is filed under a key equal to the type of each of its
    members, and has a member. *)
Definition well_filed (groups : list (value * list row)) : Prop :=
  Forall (fun g => snd g <> [] /\
                   Forall (fun c => DocumentGenerator.py_eq (fst g) (type_of c) = true) (snd g))
         groups.

Definition distinct_keys (groups : list (value * list row)) : Prop :=
  ForallOrdPairs (fun g1 g2 => DocumentGenerator.py_eq (fst g1) (fst g2) = false) groups.

(** A database that accepts everything except the statement [bad],
    which it rejects with the message [e]. *)
Definition picky (bad e : string) (rows : list row) : driver nat := {|
  db_connect := fun s => (inr tt, Datatypes.S s);
  db_execute := fun q _ s =>
    (if String.eqb q bad then inl e else inr tt, Datatypes.S s);
  db_fetchall := fun s => (inr rows, Datatypes.S s);
  db_commit := fun s => (inr tt, Datatypes.S s);
  db_rowcount := fun _ => 0%Z;
  db_close := fun s => s
|}.

End Notions.

Example upper_ex : PyStr.upper "select * From t_1" = "SELECT * FROM T_1".
Proof. reflexivity. Qed.

Example strip_ex : PyStr.strip "  a b  " = "a b".
Proof. reflexivity. Qed.

Example split_ex : PyStr.split "  ab   cd e " = ["ab"; "cd"; "e"].
Proof. reflexivity. Qed.

Example split_blank_ex : PyStr.split "   " = [].
Proof. reflexivity. Qed.

Example re_ex1 :
  Re.re_search [Re.Bnd; Re.Lit "DROP"; Re.Plus Re.Blank; Re.Lit "TABLE"; Re.Bnd]
    "SELECT 1; DROP   TABLE X" = true.
Proof. reflexivity. Qed.

Example re_ex2 :
  Re.re_search [Re.Bnd; Re.Lit "DROP"; Re.Plus Re.Blank; Re.Lit "TABLE"; Re.Bnd]
    "SELECT 1 FROM BACKDROP TABLE" = false.
Proof. reflexivity. Qed.

Example re_ex3 :
  Re.re_search [Re.Bnd; Re.Lit "UPDATE"; Re.Plus Re.Blank; Re.Plus Re.WordCh;
                Re.Plus Re.Blank; Re.Lit "SET"; Re.Bnd]
    "SELECT (UPDATE T_1  SET A=1)" = true.
Proof. reflexivity. Qed.

Example validate_ex1 :
  SQLValidator.validate_sql "select * from t; DROP TABLE x;" READONLY = false.
Proof. reflexivity. Qed.

Example validate_ex2 :
  SQLValidator.validate_sql "SELECT * FROM created_items" READONLY = true /\
  SQLValidator.validate_sql "SELECT * FROM created_items" LIMITED_WRITE = false.
Proof. split; reflexivity. Qed.

Example validate_ex3 :
  SQLValidator.validate_sql "UPDATE t SET c = 1" LIMITED_WRITE = true /\
  SQLValidator.validate_sql "DROP TABLE t" LIMITED_WRITE = false.
Proof. split; reflexivity. Qed.

Example execute_ex1 :
  KingbaseDatabase.execute_query (Spec.scripted (Spec.numbered 3) 0)
    (Spec.config_of READONLY AllowAll 2) "select id from t" None
    (Spec.start 0)
  = (Ok (Spec.numbered 2),
     Build_world 6
       [ELog (LogQuery READONLY "select id from t"); EConnect;
        EExecute "SET default_transaction_read_only = on;" None;
        EExecute "SET transaction_read_only = on;" None;
        ELog LogReadonlySession; ECommit; ELog (LogConnected READONLY);
        EExecute "select id from t" None; EFetchAll;
        ELog (LogTruncated 2); ELog (LogReturned 2);
        EClose; ELog LogClosed]).
Proof. reflexivity. Qed.

Example execute_ex2 :
  KingbaseDatabase.execute_query (Spec.scripted [] 4)
    (Spec.config_of LIMITED_WRITE AllowAll 2) "update t set c = 1" None
    (Spec.start 0)
  = (Ok [KingbaseDatabase.status_record 4],
     Build_world 4
       [ELog (LogQuery LIMITED_WRITE "update t set c = 1"); EConnect;
        ECommit; ELog (LogConnected LIMITED_WRITE);
        EExecute "update t set c = 1" None; ECommit; ELog (LogAffected 4);
        EClose; ELog LogClosed]).
Proof. reflexivity. Qed.

Example execute_ex3 :
  KingbaseDatabase.execute_query Spec.unreachable
    (Spec.config_of FULL_ACCESS AllowAll 2) "select 1" None (Spec.start tt)
  = (Raise (Psycopg2Error "connection refused"),
     Build_world tt
       [ELog (LogQuery FULL_ACCESS "select 1"); EConnect;
        ELog (LogConnectionError "connection refused")]).
Proof. reflexivity. Qed.

(** * Properties *)

(** ** Strings *)

Section StringFacts.
Import PyStr.

Lemma append_nil_r (s : string) : s ++ "" = s.
Proof. induction s as [|c s IH]; simpl; [reflexivity | now rewrite IH]. Qed.

Lemma append_assoc (a b c : string) : (a ++ b) ++ c = a ++ b ++ c.
Proof. induction a as [|x a IH]; simpl; [reflexivity | now rewrite IH]. Qed.

Lemma mem_In (x : string) (xs : list string) :
  mem x xs = true <-> In x xs.
Proof.
  unfold mem. rewrite existsb_exists. split.
  - intros [y [Hy E]]. apply String.eqb_eq in E. now subst.
  - intros H. exists x. split; [assumption | apply String.eqb_refl].
Qed.

Lemma mem_false (x : string) (xs : list string) :
  mem x xs = false <-> ~ In x xs.
Proof.
  rewrite <- mem_In. destruct (mem x xs); split; congruence.
Qed.

Lemma startswith_spec (p s : string) :
  startswith p s = true <-> exists r, s = p ++ r.
Proof.
  revert s. induction p as [|a p IH]; intros s; simpl.
  - split; [intros _; now exists s | reflexivity].
  - destruct s as [|b s].
    + split; [discriminate | intros [r Hr]; discriminate].
    + rewrite andb_true_iff, Ascii.eqb_eq, IH. split.
      * intros [-> [r ->]]. now exists r.
      * intros [r Hr]. injection Hr as -> ->. split; [reflexivity | now exists r].
Qed.

Lemma contains_spec (k t : string) :
  contains k t = true <-> Spec.occurs_in k t.
Proof.
  unfold Spec.occurs_in. induction t as [|c t IH].
  - simpl. rewrite orb_false_r, startswith_spec. split.
    + intros [r Hr]. exists "", r. exact Hr.
    + intros [pre [post H]]. destruct pre; [now exists post | discriminate].
  - simpl. rewrite orb_true_iff, startswith_spec, IH. split.
    + intros [[r Hr] | [pre [post H]]].
      * exists "", r. exact Hr.
      * exists (String c pre), post. simpl. now rewrite H.
    + intros [pre [post H]]. destruct pre as [|x pre].
      * left. now exists post.
      * right. simpl in H. injection H as _ H. now exists pre, post.
Qed.

Lemma upper_app (a b : string) : upper (a ++ b) = upper a ++ upper b.
Proof. induction a as [|c a IH]; simpl; [reflexivity | now rewrite IH]. Qed.

Lemma upper_char_blank (c : ascii) :
  is_space c = true -> upper_char c = c /\ is_space (upper_char c) = true.
Proof.
  intros H. unfold upper_char.
  assert (L : is_lower c = false).
  { unfold is_space, is_lower in *. cbv zeta in *.
    destruct (97 <=? nat_of_ascii c)%nat eqn:E; [|reflexivity].
    apply Nat.leb_le in E.
    apply orb_true_iff in H as [H | H]; apply andb_true_iff in H as [_ H];
      apply Nat.leb_le in H; lia. }
  rewrite L. now split.
Qed.

Lemma lstrip_blank (s : string) :
  Spec.all_blank s = true -> lstrip s = "".
Proof.
  unfold Spec.all_blank. induction s as [|c s IH]; simpl; [reflexivity|].
  intros H. apply andb_true_iff in H as [Hc Hs]. rewrite Hc. now apply IH.
Qed.

Lemma upper_blank (s : string) :
  Spec.all_blank s = true -> Spec.all_blank (upper s) = true.
Proof.
  unfold Spec.all_blank. induction s as [|c s IH]; simpl; [reflexivity|].
  intros H. apply andb_true_iff in H as [Hc Hs].
  destruct (upper_char_blank c Hc) as [_ ->]. now apply IH.
Qed.

Lemma lstrip_app (a : string) (c : ascii) (r : string) :
  is_space c = false -> lstrip (a ++ String c r) = lstrip a ++ String c r.
Proof.
  intros Hc. induction a as [|x a IH]; simpl.
  - now rewrite Hc.
  - destruct (is_space x); [exact IH | reflexivity].
Qed.

Lemma rstrip_app (a : string) (c : ascii) (r : string) :
  is_space c = false -> rstrip (a ++ String c r) = a ++ String c (rstrip r).
Proof.
  intros Hc. induction a as [|x a IH]; simpl.
  - now rewrite Hc.
  - rewrite IH. destruct a; simpl; now rewrite andb_false_r.
Qed.

(** A trimmed text is empty or starts with a non-blank. *)
Lemma lstrip_head (s : string) :
  lstrip s = "" \/ exists c r, lstrip s = String c r /\ is_space c = false.
Proof.
  induction s as [|c s IH]; simpl; [now left|].
  destruct (is_space c) eqn:E; [exact IH|].
  right. now exists c, s.
Qed.

Lemma strip_head (s : string) :
  strip s = "" \/ exists c r, strip s = String c r /\ is_space c = false.
Proof.
  unfold strip. destruct (lstrip_head s) as [-> | [c [r [-> Hc]]]].
  - now left.
  - right. exists c, (rstrip r). split; [|exact Hc].
    simpl. now rewrite Hc.
Qed.

(** The run of non-blanks a text starts with is a prefix of it. *)
Lemma split_run_prefix (s : string) :
  exists rest, s = fst (split_run s) ++ rest.
Proof.
  induction s as [|c s [rest IH]]; simpl.
  - now exists "".
  - destruct (split_run s) as [w ws]. simpl in IH.
    destruct (is_space c); simpl.
    + now exists (String c s).
    + exists rest. now rewrite <- IH.
Qed.

Lemma first_keyword_prefix (t : string) (c : ascii) (r : string) :
  t = String c r -> is_space c = false ->
  exists rest, t = SQLValidator._extract_first_keyword t ++ rest.
Proof.
  intros -> Hc. unfold SQLValidator._extract_first_keyword, split.
  simpl. destruct (split_run_prefix r) as [rest Hr].
  destruct (split_run r) as [w ws]. simpl in Hr. rewrite Hc.
  unfold push_word. simpl. exists rest. now rewrite <- Hr.
Qed.

Lemma first_keyword_empty :
  SQLValidator._extract_first_keyword "" = "".
Proof. reflexivity. Qed.

(** The leading keyword is a prefix of the normalized text. *)
Lemma leading_keyword_prefix (sql : string) :
  exists rest,
    SQLValidator.normalize sql = Spec.leading_keyword sql ++ rest.
Proof.
  unfold Spec.leading_keyword, SQLValidator.normalize.
  destruct (strip_head (upper sql)) as [-> | [c [r [E Hc]]]].
  - now exists "".
  - now apply (first_keyword_prefix _ c r).
Qed.

End StringFacts.

(** ** The pattern matcher *)

Section MatcherFacts.
Import PyStr Re.

Lemma drop_prefix_spec (l s s' : string) :
  drop_prefix l s = Some s' <-> s = l ++ s'.
Proof.
  revert s. induction l as [|a l IH]; intros s; simpl.
  - split; [now intros [= ->] | now intros ->].
  - destruct s as [|b s]; [split; discriminate|].
    destruct (Ascii.eqb a b) eqn:E.
    + apply Ascii.eqb_eq in E. subst b. rewrite IH. split.
      * now intros ->.
      * now intros [= ->].
    + apply Ascii.eqb_neq in E. split; [discriminate|].
      intros [= H _]. congruence.
Qed.

Lemma last_of_app (prev : option ascii) (a b : string) :
  last_of prev (a ++ b) = last_of (last_of prev a) b.
Proof.
  revert prev. induction a as [|c a IH]; intros prev; simpl;
    [reflexivity | apply IH].
Qed.

(** The loop of [match_here] for [k+] followed by [p']. *)
Lemma plus_run_spec (k : cls) (p' : list item)
  (IH : forall prev s, match_here p' prev s = true <-> Spec.matches p' prev s)
  (prev : option ascii) (s : string) :
  match_here (Plus k :: p') prev s = true <-> Spec.matches (Plus k :: p') prev s.
Proof.
  simpl. induction s as [|c s IHs].
  - split; [discriminate|]. intros [c [run [s' [H _]]]]. discriminate.
  - rewrite andb_true_iff, orb_true_iff, IHs, IH. clear IHs. split.
    + intros [Hc [Hm | [c' [run [s' [-> [Hall Hm]]]]]]].
      * exists c, "", s. simpl. rewrite Hc. auto.
      * exists c, (String c' run), s'. simpl in *. rewrite Hc. auto.
    + intros [c0 [run [s' [E [Hall Hm]]]]].
      simpl in E. injection E as <- ->.
      simpl in Hall. apply andb_true_iff in Hall as [Hc Hall].
      split; [exact Hc|]. destruct run as [|c' run].
      * left. exact Hm.
      * right. exists c', run, s'. auto.
Qed.

Lemma match_here_spec (p : list item) :
  forall prev s, match_here p prev s = true <-> Spec.matches p prev s.
Proof.
  induction p as [|i p IH]; intros prev s.
  - simpl. tauto.
  - destruct i as [|l|k].
    + simpl. rewrite andb_true_iff, IH. tauto.
    + simpl. split.
      * destruct (drop_prefix l s) as [s'|] eqn:E; [|discriminate].
        apply drop_prefix_spec in E. intros H. exists s'. split; [exact E|].
        now apply IH.
      * intros [s' [E H]]. apply drop_prefix_spec in E. rewrite E.
        now apply IH.
    + now apply plus_run_spec.
Qed.

Lemma search_from_spec (p : list item) (s : string) :
  forall prev,
    search_from p prev s = true <->
    exists pre post, s = pre ++ post /\ Spec.matches p (last_of prev pre) post.
Proof.
  induction s as [|c s IH]; intros prev; simpl.
  - rewrite orb_false_r, match_here_spec. split.
    + intros H. now exists "", "".
    + intros [pre [post [E H]]]. destruct pre; [|discriminate].
      simpl in E. now subst post.
  - rewrite orb_true_iff, match_here_spec, IH. split.
    + intros [H | [pre [post [-> H]]]].
      * now exists "", (String c s).
      * now exists (String c pre), post.
    + intros [pre [post [E H]]]. destruct pre as [|x pre].
      * left. simpl in E. now subst post.
      * right. simpl in E. injection E as <- ->. now exists pre, post.
Qed.

Lemma re_search_spec (p : list item) (t : string) :
  re_search p t = true <-> Spec.found p t.
Proof. apply search_from_spec. Qed.

End MatcherFacts.

(** ** The phrase patterns, read as whole-word phrases *)

Section PhraseFacts.
Import PyStr Re.

Lemma boundary_before (prev : option ascii) (w s : string) :
  Spec.starts_with_word_char w ->
  (boundary prev (w ++ s) = true <-> word_opt prev = false).
Proof.
  intros [c [r [-> Hc]]]. unfold boundary. simpl. rewrite Hc.
  destruct (word_opt prev); simpl; split; congruence.
Qed.

Lemma boundary_after (prev : option ascii) (w s : string) :
  Spec.ends_with_word_char w ->
  (boundary (last_of prev w) s = true <-> word_opt (head s) = false).
Proof.
  intros H. unfold boundary. rewrite H.
  destruct (word_opt (head s)); simpl; split; congruence.
Qed.

Lemma nonempty_cons (s : string) :
  s <> "" <-> exists c r, s = String c r.
Proof.
  destruct s as [|c r]; split; try congruence.
  - intros [c [r H]]. discriminate.
  - intros _. now exists c, r.
Qed.

Lemma phrase_spec (w1 w2 t : string) :
  Spec.starts_with_word_char w1 -> Spec.ends_with_word_char w2 ->
  (Spec.found (SQLValidator.phrase w1 w2) t <-> Spec.whole_word_phrase w1 w2 t).
Proof.
  intros H1 H2. unfold Spec.found, Spec.whole_word_phrase, SQLValidator.phrase.
  split.
  - intros [pre [post [-> [Hb [s1 [-> [c [run [s2 [-> [Hall [s3 [-> [Ha _]]]]]]]]]]]]]].
    apply boundary_before in Hb; [|exact H1].
    apply boundary_after in Ha; [|exact H2].
    exists pre, (String c run), s3. repeat split; try assumption.
    discriminate.
  - intros [pre [gap [post [-> [Hne [Hall [Hb Ha]]]]]]].
    apply nonempty_cons in Hne as [c [run ->]].
    exists pre, (w1 ++ String c run ++ w2 ++ post). split; [reflexivity|].
    simpl. split; [now apply boundary_before|].
    exists (String c run ++ w2 ++ post). split; [reflexivity|].
    exists c, run, (w2 ++ post). split; [reflexivity|].
    split; [exact Hall|].
    exists post. split; [reflexivity|].
    split; [now apply boundary_after | exact I].
Qed.

Lemma update_set_spec (t : string) :
  Spec.found
    [Bnd; Lit "UPDATE"; Plus Blank; Plus WordCh; Plus Blank; Lit "SET"; Bnd] t
  <-> Spec.update_set_phrase t.
Proof.
  assert (H1 : Spec.starts_with_word_char "UPDATE") by (now exists "U"%char, "PDATE").
  assert (H2 : Spec.ends_with_word_char "SET") by (intros prev; reflexivity).
  unfold Spec.found, Spec.update_set_phrase. split.
  - intros (pre & post & -> & Hb & s1 & -> & c1 & r1 & s2 & -> & A1 &
            c2 & r2 & s3 & -> & A2 & c3 & r3 & s4 & -> & A3 & s5 & -> & Ha & _).
    apply boundary_before in Hb; [|exact H1].
    apply boundary_after in Ha; [|exact H2].
    exists pre, (String c1 r1), (String c2 r2), (String c3 r3), s5.
    repeat split; try assumption; discriminate.
  - intros [pre [g1 [id [g2 [post [-> [N1 [A1 [N2 [A2 [N3 [A3 [Hb Ha]]]]]]]]]]]]].
    apply nonempty_cons in N1 as [c1 [r1 ->]].
    apply nonempty_cons in N2 as [c2 [r2 ->]].
    apply nonempty_cons in N3 as [c3 [r3 ->]].
    eexists pre, _. split; [reflexivity|].
    split; [now apply (boundary_before _ "UPDATE")|].
    eexists. split; [reflexivity|].
    exists c1, r1. eexists. split; [reflexivity|]. split; [exact A1|].
    exists c2, r2. eexists. split; [reflexivity|]. split; [exact A2|].
    exists c3, r3. eexists. split; [reflexivity|]. split; [exact A3|].
    exists post. split; [reflexivity|].
    split; [now apply (boundary_after _ "SET") | exact I].
Qed.

Ltac word_ends :=
  first [ eexists _, _; split; reflexivity | intros ?; reflexivity ].

(** The scan of [_validate_readonly] for a [SELECT] finds a pattern
    exactly when one of the seven phrases occurs. *)
Lemma dangerous_patterns_spec (t : string) :
  existsb (fun pattern => re_search pattern t) SQLValidator.dangerous_patterns
    = true
  <-> Spec.embedded_dangerous_clause t.
Proof.
  unfold SQLValidator.dangerous_patterns, Spec.embedded_dangerous_clause.
  cbn [existsb]. rewrite !orb_true_iff, !re_search_spec, update_set_spec.
  rewrite !phrase_spec by word_ends.
  intuition congruence.
Qed.

End PhraseFacts.

(** ** The classifier *)

Section ClassifierFacts.
Import PyStr Re SQLValidator.

Lemma no_keyword_occurs (ks : list string) (t : string) :
  negb (existsb (fun k => contains k t) ks) = true <->
  forall k, In k ks -> ~ Spec.occurs_in k t.
Proof.
  rewrite negb_true_iff. split.
  - intros H k Hk Ho. apply contains_spec in Ho.
    assert (E : existsb (fun k => contains k t) ks = true)
      by (apply existsb_exists; now exists k).
    congruence.
  - intros H. destruct (existsb _ ks) eqn:E; [|reflexivity].
    apply existsb_exists in E as [k [Hk Ho]]. apply contains_spec in Ho.
    now destruct (H k Hk).
Qed.

Lemma some_keyword_occurs (ks : list string) (t : string) :
  negb (existsb (fun k => contains k t) ks) = false <->
  exists k, In k ks /\ Spec.occurs_in k t.
Proof.
  rewrite negb_false_iff, existsb_exists.
  split; intros [k [Hk Ho]]; exists k; split; try assumption;
    now apply contains_spec.
Qed.

(** Under [READONLY], by cases on the leading keyword. *)
Lemma readonly_not_readonly_keyword (sql : string) :
  ~ In (Spec.leading_keyword sql) READONLY_OPERATIONS ->
  validate_sql sql READONLY = false.
Proof.
  intros H. apply mem_false in H. unfold validate_sql, _validate_readonly.
  fold (Spec.leading_keyword sql). now rewrite H.
Qed.

Lemma readonly_select (sql : string) :
  Spec.leading_keyword sql = "SELECT" ->
  (validate_sql sql READONLY = false <->
   Spec.embedded_dangerous_clause (normalize sql)).
Proof.
  intros H. unfold validate_sql, _validate_readonly.
  fold (Spec.leading_keyword sql). rewrite H. cbn [mem existsb String.eqb
    READONLY_OPERATIONS negb orb Ascii.eqb Bool.eqb].
  rewrite negb_false_iff. apply dangerous_patterns_spec.
Qed.

Lemma readonly_other_keyword (sql : string) :
  In (Spec.leading_keyword sql) READONLY_OPERATIONS ->
  Spec.leading_keyword sql <> "SELECT" ->
  (validate_sql sql READONLY = false <->
   exists k, In k (WRITE_OPERATIONS ++ DANGEROUS_OPERATIONS)%list /\
             Spec.occurs_in k (normalize sql)).
Proof.
  intros H N. apply mem_In in H. apply String.eqb_neq in N.
  unfold validate_sql, _validate_readonly.
  fold (Spec.leading_keyword sql). rewrite H, N. cbn [negb].
  apply some_keyword_occurs.
Qed.

(** The text [; DROP TABLE x;] survives normalization, in upper case. *)
Lemma smuggled_drop_normalized (a b : string) :
  exists a' b',
    normalize (a ++ "; DROP TABLE x;" ++ b) = a' ++ "; DROP TABLE X;" ++ b'.
Proof.
  unfold normalize, strip. rewrite !upper_app.
  change (upper "; DROP TABLE x;") with "; DROP TABLE X;".
  change ("; DROP TABLE X;" ++ upper b)
    with (String ";" (" DROP TABLE X;" ++ upper b)).
  rewrite lstrip_app by reflexivity.
  change (String ";" (" DROP TABLE X;" ++ upper b))
    with ("; DROP TABLE X" ++ String ";" (upper b)).
  rewrite <- append_assoc, rstrip_app by reflexivity.
  exists (lstrip (upper a)), (rstrip (upper b)).
  now rewrite append_assoc.
Qed.

Lemma smuggled_drop_is_clause (a' b' : string) :
  Spec.embedded_dangerous_clause (a' ++ "; DROP TABLE X;" ++ b').
Proof.
  left. exists (a' ++ "; "), " ", (" X;" ++ b'). repeat split.
  - now rewrite append_assoc.
  - discriminate.
  - unfold Spec.ends_outside_word. now rewrite last_of_app.
Qed.

Lemma readonly_smuggled_drop (sql : string) :
  Spec.leading_keyword sql = "SELECT" ->
  Spec.occurs_in "; DROP TABLE x;" sql ->
  validate_sql sql READONLY = false.
Proof.
  intros H [a [b ->]]. apply readonly_select; [exact H|].
  destruct (smuggled_drop_normalized a b) as [a' [b' ->]].
  apply smuggled_drop_is_clause.
Qed.

Lemma limited_write_permits (sql : string) :
  validate_sql sql LIMITED_WRITE = true <->
  In (Spec.leading_keyword sql) (READONLY_OPERATIONS ++ WRITE_OPERATIONS)%list /\
  forall d, In d DANGEROUS_OPERATIONS -> ~ Spec.occurs_in d (normalize sql).
Proof.
  unfold validate_sql, _validate_limited_write.
  fold (Spec.leading_keyword sql). rewrite <- mem_In, <- no_keyword_occurs.
  destruct (mem _ _); cbn [negb]; intuition congruence.
Qed.

(** A blank statement has the empty normalized text. *)
Lemma blank_normalized (sql : string) :
  Spec.all_blank sql = true -> normalize sql = "".
Proof.
  intros H. unfold normalize, strip.
  now rewrite (lstrip_blank _ (upper_blank _ H)).
Qed.

End ClassifierFacts.

(** C1.  A statement whose leading keyword is one of DELETE, DROP,
    CREATE, ALTER, TRUNCATE, GRANT, REVOKE is denied under READONLY and
    under LIMITED_WRITE and permitted under FULL_ACCESS. *)
Theorem dangerous_keyword_decision (sql : string) :
  In (Spec.leading_keyword sql) SQLValidator.DANGEROUS_OPERATIONS ->
  SQLValidator.validate_sql sql READONLY = false /\
  SQLValidator.validate_sql sql LIMITED_WRITE = false /\
  SQLValidator.validate_sql sql FULL_ACCESS = true.
Proof.
  intros H. unfold SQLValidator.validate_sql.
  fold (Spec.leading_keyword sql).
  simpl in H.
  repeat (destruct H as [<- | H]; [repeat split; reflexivity|]).
  destruct H.
Qed.

Lemma dangerous_keyword_decision_witness :
  In (Spec.leading_keyword "drop table t") SQLValidator.DANGEROUS_OPERATIONS /\
  SQLValidator.validate_sql "drop table t" READONLY = false /\
  SQLValidator.validate_sql "drop table t" LIMITED_WRITE = false /\
  SQLValidator.validate_sql "drop table t" FULL_ACCESS = true.
Proof.
  assert (H : In (Spec.leading_keyword "drop table t")
                 SQLValidator.DANGEROUS_OPERATIONS)
    by (vm_compute; tauto).
  split; [exact H | exact (dangerous_keyword_decision "drop table t" H)].
Defined.

(** C2.  The READONLY decision: a leading keyword outside the read-only
    set is denied; a SELECT is denied exactly when one of the seven
    whole-word phrases occurs in the normalized text, so a SELECT that
    contains [; DROP TABLE x;] is denied; any other read-only keyword is
    denied exactly when a write or dangerous keyword occurs in the
    normalized text as a substring.  Stated for a statement of 7-bit
    characters, where the model of the text is exact. *)
Theorem readonly_decision (sql : string) :
  Spec.ascii_text sql = true ->
  (~ In (Spec.leading_keyword sql) SQLValidator.READONLY_OPERATIONS ->
   SQLValidator.validate_sql sql READONLY = false) /\
  (Spec.leading_keyword sql = "SELECT" ->
   (SQLValidator.validate_sql sql READONLY = false <->
    Spec.embedded_dangerous_clause (SQLValidator.normalize sql))) /\
  (Spec.leading_keyword sql = "SELECT" ->
   Spec.occurs_in "; DROP TABLE x;" sql ->
   SQLValidator.validate_sql sql READONLY = false) /\
  (In (Spec.leading_keyword sql) SQLValidator.READONLY_OPERATIONS ->
   Spec.leading_keyword sql <> "SELECT" ->
   (SQLValidator.validate_sql sql READONLY = false <->
    exists k,
      In k (SQLValidator.WRITE_OPERATIONS
              ++ SQLValidator.DANGEROUS_OPERATIONS)%list /\
      Spec.occurs_in k (SQLValidator.normalize sql))).
Proof.
  intros _.
  split; [apply readonly_not_readonly_keyword|].
  split; [apply readonly_select|].
  split; [apply readonly_smuggled_drop | apply readonly_other_keyword].
Qed.

(** C3.  Under LIMITED_WRITE a statement is permitted exactly when its
    leading keyword is a read-only or write keyword and no dangerous
    keyword occurs in the normalized text as a substring;
    [UPDATE t SET c = 1] is permitted and [DROP TABLE t] is denied.
    The general part is stated for statements of 7-bit characters, where
    the model of the text is exact. *)
Theorem limited_write_decision :
  (forall sql,
     Spec.ascii_text sql = true ->
     SQLValidator.validate_sql sql LIMITED_WRITE = true <->
     In (Spec.leading_keyword sql)
        (SQLValidator.READONLY_OPERATIONS
           ++ SQLValidator.WRITE_OPERATIONS)%list /\
     forall d, In d SQLValidator.DANGEROUS_OPERATIONS ->
               ~ Spec.occurs_in d (SQLValidator.normalize sql)) /\
  SQLValidator.validate_sql "UPDATE t SET c = 1" LIMITED_WRITE = true /\
  SQLValidator.validate_sql "DROP TABLE t" LIMITED_WRITE = false.
Proof.
  split; [intros sql _; apply limited_write_permits | split; reflexivity].
Qed.

Lemma limited_write_decision_witness :
  SQLValidator.validate_sql "insert into t values (1)" LIMITED_WRITE = true.
Proof.
  apply (proj1 limited_write_decision "insert into t values (1)" eq_refl).
  split; [vm_compute; tauto|].
  intros d Hd Ho. apply contains_spec in Ho. simpl in Hd.
  repeat (destruct Hd as [<- | Hd]; [vm_compute in Ho; discriminate|]).
  destruct Hd.
Defined.

Lemma readonly_decision_witness :
  SQLValidator.validate_sql "insert into t values (1)" READONLY = false /\
  SQLValidator.validate_sql "select 1; DROP TABLE x;" READONLY = false /\
  (SQLValidator.validate_sql "with a as (select 1) select * from updates"
     READONLY = false).
Proof.
  split; [|split].
  - apply (proj1 (readonly_decision "insert into t values (1)" eq_refl)).
    vm_compute. intuition discriminate.
  - apply (proj1 (proj2 (proj2 (readonly_decision "select 1; DROP TABLE x;"
                                  eq_refl)))).
    + reflexivity.
    + now exists "select 1", "".
  - apply (proj2 (proj2 (proj2
             (readonly_decision "with a as (select 1) select * from updates"
                eq_refl)))).
    + vm_compute. tauto.
    + discriminate.
    + exists "UPDATE". split; [vm_compute; tauto|].
      now exists "WITH A AS (SELECT 1) SELECT * FROM ", "S".
Defined.

(** C8, as stated, fails: a blank statement has the empty normalized
    text and the empty leading keyword, and FULL_ACCESS permits it. *)
Lemma blank_statement_full_access :
  SQLValidator.normalize "   " = "" /\
  Spec.leading_keyword "   " = "" /\
  SQLValidator.validate_sql "   " FULL_ACCESS = true /\
  SQLValidator.validate_sql "" FULL_ACCESS = true.
Proof. repeat split. Qed.

(** C8, amended.  A statement whose normalized text is empty has the
    empty leading keyword and is denied under READONLY and under
    LIMITED_WRITE; FULL_ACCESS permits it like every statement. *)
Theorem empty_statement_decision (sql : string) :
  SQLValidator.normalize sql = "" ->
  Spec.leading_keyword sql = "" /\
  SQLValidator.validate_sql sql READONLY = false /\
  SQLValidator.validate_sql sql LIMITED_WRITE = false /\
  SQLValidator.validate_sql sql FULL_ACCESS = true.
Proof.
  intros H. unfold Spec.leading_keyword, SQLValidator.validate_sql.
  rewrite H. repeat split.
Qed.

Lemma empty_statement_decision_witness :
  SQLValidator.normalize "   " = "" /\
  Spec.leading_keyword "   " = "" /\
  SQLValidator.validate_sql "   " READONLY = false /\
  SQLValidator.validate_sql "   " LIMITED_WRITE = false /\
  SQLValidator.validate_sql "   " FULL_ACCESS = true.
Proof.
  split; [reflexivity | apply (empty_statement_decision "   "); reflexivity].
Defined.

(** ** The mediator *)

Section MediatorFacts.
Import PyStr SQLValidator KingbaseDatabase.
Context {S : Type}.
Variable drv : driver S.
Variable config : Config.

Lemma bind_ok {A B} (m : M S A) (k : A -> M S B) (w w' : world S) (a : A) :
  m w = (Ok a, w') -> bind m k w = k a w'.
Proof. intros H. unfold bind. now rewrite H. Qed.

Lemma call_accepted {A} (e : event) (op : S -> (string + A) * S) (a : A)
  (w : world S) :
  (forall s, fst (op s) = inr a) ->
  call e op w = (Ok a, Build_world (snd (op (db w))) (trace w ++ [e])).
Proof.
  intros H. unfold call. specialize (H (db w)).
  destruct (op (db w)) as [r d]. simpl in *. now subst r.
Qed.

Lemma configure_session_ok (w : world S) :
  Spec.accepts_all drv ->
  exists w', configure_session drv config w = (Ok tt, w').
Proof.
  intros [_ [He Hc]]. unfold configure_session, cur_execute, conn_commit.
  destruct (is_readonly_mode config).
  - erewrite bind_ok.
    2:{ erewrite bind_ok by (apply call_accepted; apply He).
        erewrite bind_ok by (apply call_accepted; apply He).
        reflexivity. }
    erewrite bind_ok by (apply call_accepted; apply Hc).
    eexists. reflexivity.
  - erewrite bind_ok by reflexivity.
    erewrite bind_ok by (apply call_accepted; apply Hc).
    eexists. reflexivity.
Qed.

(** With a database that accepts everything, [get_connection] runs the
    body in a configured session and closes the connection after it. *)
Lemma get_connection_ok (w : world S) :
  Spec.accepts_all drv ->
  exists w1,
    forall A (body : M S A) (a : A) (w2 : world S),
      body w1 = (Ok a, w2) ->
      get_connection drv config body w
      = (Ok a, Build_world (db_close drv (db w2))
                 ((trace w2 ++ [EClose]) ++ [ELog LogClosed])).
Proof.
  intros Hacc. pose proof Hacc as [Hconn _].
  destruct (configure_session_ok
              (Build_world (snd (db_connect drv (db w))) (trace w ++ [EConnect]))
              Hacc) as [w1 Hw1].
  exists w1. intros A body a w2 Hbody.
  unfold get_connection, connect.
  rewrite (call_accepted EConnect (db_connect drv) tt w Hconn).
  unfold try_finally, try_except_db.
  rewrite (bind_ok _ _ _ _ _ Hw1), Hbody. reflexivity.
Qed.

Lemma execute_query_denied (sql : string) (params : option (list value))
  (w : world S) :
  validate_sql sql (security_mode config) = false ->
  execute_query drv config sql params w
  = (Raise (ValueError ("SQL操作被安全策略禁止: "
                        ++ get_error_message sql (security_mode config))), w).
Proof. intros H. unfold execute_query. now rewrite H. Qed.

Lemma query_log_ok (sql : string) (w : world S) :
  exists w0,
    (if enable_query_log config
     then log (LogQuery (security_mode config) (substring 0 200 sql))
     else ret tt) w = (Ok tt, w0).
Proof. destruct (enable_query_log config); eexists; reflexivity. Qed.

(** A permitted statement that passes the prefix test, on a database
    that accepts everything: the result and the last events of the call. *)
Lemma execute_query_retrieval (sql : string) (params : option (list value))
  (rows : list row) (w : world S) :
  Spec.accepts_all drv -> Spec.fetches drv rows ->
  validate_sql sql (security_mode config) = true ->
  startswith_any retrieval_prefixes (normalize sql) = true ->
  exists t,
    fst (execute_query drv config sql params w)
    = Ok (Spec.within_ceiling (max_result_rows config) rows) /\
    trace (snd (execute_query drv config sql params w))
    = (t ++ [EExecute sql params; EFetchAll]
         ++ (if (max_result_rows config <? Z.of_nat (List.length rows))%Z
             then [ELog (LogTruncated (max_result_rows config))] else [])
         ++ [ELog (LogReturned
                     (List.length
                        (Spec.within_ceiling (max_result_rows config) rows)));
             EClose; ELog LogClosed])%list.
Proof.
  intros Hacc Hf Hv Hp. pose proof Hacc as [_ [He Hc]].
  unfold execute_query. rewrite Hv. cbn [negb].
  destruct (query_log_ok sql w) as [w0 Hw0]. rewrite (bind_ok _ _ _ _ _ Hw0).
  destruct (get_connection_ok w0 Hacc) as [w1 Hrun].
  fold (normalize sql). rewrite Hp. exists (trace w1).
  unfold Spec.within_ceiling.
  destruct (max_result_rows config <? Z.of_nat (List.length rows))%Z eqn:Hlt.
  - erewrite Hrun.
    2:{ unfold try_except_db, cur_execute, cur_fetchall.
        erewrite bind_ok by (apply call_accepted; apply He).
        erewrite bind_ok by (apply call_accepted; apply Hf).
        cbv beta. rewrite Hlt. reflexivity. }
    cbn [fst snd trace db]. rewrite map_id, <- !app_assoc.
    split; reflexivity.
  - erewrite Hrun.
    2:{ unfold try_except_db, cur_execute, cur_fetchall.
        erewrite bind_ok by (apply call_accepted; apply He).
        erewrite bind_ok by (apply call_accepted; apply Hf).
        cbv beta. rewrite Hlt. reflexivity. }
    cbn [fst snd trace db]. rewrite map_id, <- !app_assoc.
    split; reflexivity.
Qed.

(** A permitted statement that fails the prefix test, on a database
    that accepts everything. *)
Lemma execute_query_mutation (sql : string) (params : option (list value))
  (n : Z) (w : world S) :
  Spec.accepts_all drv -> Spec.counts drv n ->
  validate_sql sql (security_mode config) = true ->
  startswith_any retrieval_prefixes (normalize sql) = false ->
  exists t,
    fst (execute_query drv config sql params w) = Ok [status_record n] /\
    trace (snd (execute_query drv config sql params w))
    = (t ++ [EExecute sql params; ECommit; ELog (LogAffected n);
             EClose; ELog LogClosed])%list.
Proof.
  intros Hacc Hn Hv Hp. pose proof Hacc as [_ [He Hc]].
  unfold execute_query. rewrite Hv. cbn [negb].
  destruct (query_log_ok sql w) as [w0 Hw0]. rewrite (bind_ok _ _ _ _ _ Hw0).
  destruct (get_connection_ok w0 Hacc) as [w1 Hrun].
  fold (normalize sql). rewrite Hp. exists (trace w1).
  erewrite Hrun.
  2:{ unfold try_except_db, cur_execute, conn_commit, cur_rowcount.
      erewrite bind_ok by (apply call_accepted; apply He).
      erewrite bind_ok by (apply call_accepted; apply Hc).
      erewrite bind_ok by reflexivity.
      reflexivity. }
  cbn [fst snd trace db]. rewrite Hn, <- !app_assoc. split; reflexivity.
Qed.

Lemma execute_safe_query_unfold (sql : string) (params : option (list value))
  (w : world S) :
  execute_safe_query drv config sql params w
  = if validate_sql sql READONLY then execute_query drv config sql params w
    else (Raise (ValueError "系统查询必须是只读操作"), w).
Proof.
  unfold execute_safe_query. now destruct (validate_sql sql READONLY).
Qed.

End MediatorFacts.

Section ShapeFacts.
Import PyStr SQLValidator KingbaseDatabase.

(** A statement whose leading keyword is a retrieval word starts with
    it. *)
Lemma keyword_is_prefix (sql : string) :
  In (Spec.leading_keyword sql) retrieval_prefixes ->
  startswith_any retrieval_prefixes (normalize sql) = true.
Proof.
  intros H. unfold startswith_any. apply existsb_exists.
  exists (Spec.leading_keyword sql). split; [exact H|].
  apply startswith_spec. apply leading_keyword_prefix.
Qed.

(** For the keywords READONLY and LIMITED_WRITE let through, the prefix
    test and the test on the leading keyword agree. *)
Lemma prefix_is_keyword (sql : string) :
  In (Spec.leading_keyword sql) (READONLY_OPERATIONS ++ WRITE_OPERATIONS)%list ->
  startswith_any retrieval_prefixes (normalize sql) = true ->
  In (Spec.leading_keyword sql) retrieval_prefixes.
Proof.
  intros H. destruct (leading_keyword_prefix sql) as [rest ->].
  simpl in H.
  repeat (destruct H as [<- | H]; [simpl; intros E; try discriminate; tauto|]).
  destruct H.
Qed.

Lemma permitted_keyword (sql : string) (mode : SecurityMode) :
  mode <> FULL_ACCESS -> validate_sql sql mode = true ->
  In (Spec.leading_keyword sql) (READONLY_OPERATIONS ++ WRITE_OPERATIONS)%list.
Proof.
  intros Hm Hv. destruct mode; [|now apply limited_write_permits in Hv|congruence].
  unfold validate_sql, _validate_readonly in Hv.
  fold (Spec.leading_keyword sql) in Hv.
  destruct (mem (Spec.leading_keyword sql) READONLY_OPERATIONS) eqn:E;
    [|discriminate].
  apply mem_In in E. apply in_or_app. now left.
Qed.

End ShapeFacts.

Section CeilingFacts.

Lemma slice_to_firstn {A} (n : Z) (xs : list A) :
  (0 <= n)%Z -> slice_to n xs = firstn (Z.to_nat n) xs.
Proof.
  intros H. unfold slice_to. apply Z.leb_le in H. now rewrite H.
Qed.

Lemma within_ceiling_over (limit : Z) (rows : list row) :
  (0 <= limit < Z.of_nat (List.length rows))%Z ->
  Spec.within_ceiling limit rows = firstn (Z.to_nat limit) rows /\
  List.length (firstn (Z.to_nat limit) rows) = Z.to_nat limit.
Proof.
  intros [H0 H]. unfold Spec.within_ceiling.
  pose proof H as Hlt. apply Z.ltb_lt in Hlt. rewrite Hlt.
  split; [now apply slice_to_firstn|].
  apply firstn_length_le. lia.
Qed.

Lemma within_ceiling_under (limit : Z) (rows : list row) :
  (Z.of_nat (List.length rows) <= limit)%Z ->
  Spec.within_ceiling limit rows = rows.
Proof.
  intros H. unfold Spec.within_ceiling.
  apply Z.ltb_ge in H. now rewrite H.
Qed.

End CeilingFacts.

(** C4.  [execute_safe_query] raises on every statement whose leading
    keyword is a write or dangerous keyword, whatever the configured
    mode, and leaves the database untouched: no connection is opened and
    nothing is executed. *)
Theorem safe_query_denies_writes {S : Type} (drv : driver S) (config : Config)
  (sql : string) (params : option (list value)) (w : world S) :
  In (Spec.leading_keyword sql)
     (SQLValidator.WRITE_OPERATIONS ++ SQLValidator.DANGEROUS_OPERATIONS)%list ->
  KingbaseDatabase.execute_safe_query drv config sql params w
  = (Raise (ValueError "系统查询必须是只读操作"), w).
Proof.
  intros H. rewrite execute_safe_query_unfold.
  unfold SQLValidator.validate_sql. fold (Spec.leading_keyword sql).
  simpl in H.
  repeat (destruct H as [<- | H]; [reflexivity|]).
  destruct H.
Qed.

Lemma safe_query_denies_writes_witness :
  KingbaseDatabase.execute_safe_query (Spec.scripted [] 1)
    (Spec.config_of FULL_ACCESS AllowAll 1000)
    "INSERT INTO t VALUES (1)" None (Spec.start 0)
  = (Raise (ValueError "系统查询必须是只读操作"), Spec.start 0).
Proof.
  apply (safe_query_denies_writes (Spec.scripted [] 1)
           (Spec.config_of FULL_ACCESS AllowAll 1000)
           "INSERT INTO t VALUES (1)" None (Spec.start 0)).
  vm_compute. tauto.
Defined.

(** C7, as stated, fails.  [SELECT 1; DROP TABLE x] is denied under
    READONLY because of the clause the scan finds, yet the reason names
    the leading keyword SELECT, which READONLY accepts, as an
    unsupported operation: it names neither DROP nor a forbidden
    dangerous operation. *)
Lemma scan_denial_names_leading_keyword :
  SQLValidator.validate_sql "SELECT 1; DROP TABLE x" READONLY = false /\
  Spec.leading_keyword "SELECT 1; DROP TABLE x" = "SELECT" /\
  In "SELECT" SQLValidator.READONLY_OPERATIONS /\
  KingbaseDatabase.execute_query (Spec.scripted [] 0)
    (Spec.config_of READONLY AllowAll 1000) "SELECT 1; DROP TABLE x" None
    (Spec.start 0)
  = (Raise (ValueError "SQL操作被安全策略禁止: 只读模式下不支持的操作: SELECT"),
     Spec.start 0) /\
  PyStr.contains "DROP"
    "SQL操作被安全策略禁止: 只读模式下不支持的操作: SELECT" = false /\
  PyStr.contains "禁止危险操作"
    "SQL操作被安全策略禁止: 只读模式下不支持的操作: SELECT" = false.
Proof.
  split; [reflexivity|]. split; [reflexivity|].
  split; [simpl; tauto|]. split; [reflexivity|].
  split; reflexivity.
Qed.

(** C7, amended.  A statement (of 7-bit characters) the classifier
    denies makes [execute_query] raise at once, with the classifier's
    reason in the error; the world is left as it was, so no connection
    is opened.  The reason names the mode and the leading keyword, and
    its kind is chosen from the leading keyword alone: under READONLY a
    write keyword is a forbidden write operation, a dangerous keyword a
    forbidden dangerous operation, any other keyword an unsupported
    operation; under LIMITED_WRITE a dangerous keyword is a forbidden
    dangerous operation, any other keyword an unsupported operation.
    FULL_ACCESS denies nothing. *)
Theorem denied_statement_raises {S : Type} (drv : driver S) (config : Config)
  (sql : string) (params : option (list value)) (w : world S) :
  Spec.ascii_text sql = true ->
  SQLValidator.validate_sql sql (security_mode config) = false ->
  KingbaseDatabase.execute_query drv config sql params w
  = (Raise (ValueError
              ("SQL操作被安全策略禁止: "
               ++ SQLValidator.get_error_message sql (security_mode config))),
     w) /\
  (security_mode config = READONLY ->
   (In (Spec.leading_keyword sql) SQLValidator.WRITE_OPERATIONS ->
    SQLValidator.get_error_message sql READONLY
    = "只读模式下禁止写入操作: " ++ Spec.leading_keyword sql) /\
   (In (Spec.leading_keyword sql) SQLValidator.DANGEROUS_OPERATIONS ->
    SQLValidator.get_error_message sql READONLY
    = "只读模式下禁止危险操作: " ++ Spec.leading_keyword sql) /\
   (~ In (Spec.leading_keyword sql) SQLValidator.WRITE_OPERATIONS ->
    ~ In (Spec.leading_keyword sql) SQLValidator.DANGEROUS_OPERATIONS ->
    SQLValidator.get_error_message sql READONLY
    = "只读模式下不支持的操作: " ++ Spec.leading_keyword sql)) /\
  (security_mode config = LIMITED_WRITE ->
   (In (Spec.leading_keyword sql) SQLValidator.DANGEROUS_OPERATIONS ->
    SQLValidator.get_error_message sql LIMITED_WRITE
    = "限制写入模式下禁止危险操作: " ++ Spec.leading_keyword sql) /\
   (~ In (Spec.leading_keyword sql) SQLValidator.DANGEROUS_OPERATIONS ->
    SQLValidator.get_error_message sql LIMITED_WRITE
    = "限制写入模式下不支持的操作: " ++ Spec.leading_keyword sql)) /\
  security_mode config <> FULL_ACCESS.
Proof.
  intros _ H. split; [now apply execute_query_denied|].
  unfold SQLValidator.get_error_message. fold (Spec.leading_keyword sql).
  split; [|split].
  - intros _. split; [|split].
    + intros Hk. apply mem_In in Hk. now rewrite Hk.
    + intros Hk. simpl in Hk.
      repeat (destruct Hk as [<- | Hk]; [reflexivity|]). destruct Hk.
    + intros Hw Hd. apply mem_false in Hw, Hd. now rewrite Hw, Hd.
  - intros _. split.
    + intros Hk. apply mem_In in Hk. now rewrite Hk.
    + intros Hd. apply mem_false in Hd. now rewrite Hd.
  - intros E. rewrite E in H. discriminate.
Qed.

Lemma denied_statement_raises_witness :
  KingbaseDatabase.execute_query (Spec.scripted [] 1)
    (Spec.config_of READONLY AllowAll 1000)
    "INSERT INTO t VALUES (1)" None (Spec.start 0)
  = (Raise (ValueError "SQL操作被安全策略禁止: 只读模式下禁止写入操作: INSERT"),
     Spec.start 0) /\
  SQLValidator.get_error_message "INSERT INTO t VALUES (1)" READONLY
  = "只读模式下禁止写入操作: INSERT".
Proof.
  destruct (denied_statement_raises (Spec.scripted [] 1)
              (Spec.config_of READONLY AllowAll 1000)
              "INSERT INTO t VALUES (1)" None (Spec.start 0)
              eq_refl eq_refl) as [Hraise [Hro _]].
  split; [exact Hraise|].
  apply (proj1 (Hro eq_refl)). vm_compute. tauto.
Defined.

(** C10.  [SELECT * FROM created_items] passes the READONLY check, yet
    [execute_safe_query] raises on it when the configured mode is
    LIMITED_WRITE: the error is the one [execute_query] raises after
    validating again, under the configured mode. *)
Theorem safe_query_revalidates {S : Type} (drv : driver S)
  (policy : SchemaAccessPolicy) (limit : Z) (query_log : bool)
  (params : option (list value)) (w : world S) :
  SQLValidator.validate_sql "SELECT * FROM created_items" READONLY = true /\
  SQLValidator.validate_sql "SELECT * FROM created_items" LIMITED_WRITE = false /\
  KingbaseDatabase.execute_safe_query drv
    {| security_mode := LIMITED_WRITE; schema_access := policy;
       max_result_rows := limit; enable_query_log := query_log |}
    "SELECT * FROM created_items" params w
  = (Raise (ValueError
              "SQL操作被安全策略禁止: 限制写入模式下不支持的操作: SELECT"), w).
Proof. repeat split. Qed.

(** C5.  With an allow-list, the schema gate permits a schema exactly
    when its name is in the list, compared as it is written; a schema
    outside the list makes [get_all_tables] raise, before any access to
    the database, an error that carries the display string of the
    policy. *)
Theorem allow_list_gate {S : Type} (drv : driver S) (config : Config)
  (str_of_schemas : list string -> string) (names : list string)
  (schema : string) (w : world S) :
  schema_access config = AllowList names ->
  (exists permitted,
     KingbaseDatabase._is_schema_allowed drv config schema w
     = (Ok permitted, w) /\
     (permitted = true <-> In schema names)) /\
  (~ In schema names ->
   KingbaseDatabase.get_all_tables drv config str_of_schemas schema w
   = (Raise (ValueError
              ("不允许访问模式: " ++ schema ++ "，允许的模式: "
               ++ KingbaseDatabase._get_allowed_schemas_display
                    config str_of_schemas)), w)) /\
  KingbaseDatabase._get_allowed_schemas_display config str_of_schemas
  = str_of_schemas names.
Proof.
  intros H.
  assert (G : KingbaseDatabase._is_schema_allowed drv config schema w
              = (Ok (PyStr.mem schema names), w)).
  { unfold KingbaseDatabase._is_schema_allowed, is_all_schemas_allowed,
      is_auto_discover_schemas, allowed_schemas. now rewrite H. }
  split; [|split].
  - exists (PyStr.mem schema names). split; [exact G | apply mem_In].
  - intros Hn. apply mem_false in Hn.
    unfold KingbaseDatabase.get_all_tables.
    rewrite (bind_ok _ _ _ _ _ G), Hn. reflexivity.
  - unfold KingbaseDatabase._get_allowed_schemas_display,
      is_all_schemas_allowed, is_auto_discover_schemas, allowed_schemas.
    now rewrite H.
Qed.

Lemma allow_list_gate_witness :
  KingbaseDatabase._is_schema_allowed (Spec.scripted [] 0)
    (Spec.config_of READONLY (AllowList ["public"]) 1000) "hr" (Spec.start 0)
  = (Ok false, Spec.start 0) /\
  KingbaseDatabase._is_schema_allowed (Spec.scripted [] 0)
    (Spec.config_of READONLY (AllowList ["public"]) 1000) "public"
    (Spec.start 0)
  = (Ok true, Spec.start 0) /\
  KingbaseDatabase._is_schema_allowed (Spec.scripted [] 0)
    (Spec.config_of READONLY (AllowList ["public"]) 1000) "Public"
    (Spec.start 0)
  = (Ok false, Spec.start 0) /\
  KingbaseDatabase.get_all_tables (Spec.scripted [] 0)
    (Spec.config_of READONLY (AllowList ["public"]) 1000)
    (String.concat ", ") "hr" (Spec.start 0)
  = (Raise (ValueError "不允许访问模式: hr，允许的模式: public"), Spec.start 0).
Proof.
  pose (gate := fun schema =>
    allow_list_gate (Spec.scripted [] 0)
      (Spec.config_of READONLY (AllowList ["public"]) 1000)
      (String.concat ", ") ["public"] schema (Spec.start 0) eq_refl).
  split; [|split; [|split]].
  - destruct (gate "hr") as [[b [E Hb]] _].
    destruct b; [|exact E].
    destruct (proj1 Hb eq_refl) as [X | []]. discriminate X.
  - destruct (gate "public") as [[b [E Hb]] _].
    destruct b; [exact E|].
    discriminate (proj2 Hb (or_introl eq_refl)).
  - destruct (gate "Public") as [[b [E Hb]] _].
    destruct b; [|exact E].
    destruct (proj1 Hb eq_refl) as [X | []]. discriminate X.
  - destruct (gate "hr") as [_ [E _]]. apply E.
    simpl. intros [E' | []]. discriminate.
Defined.

(** C6.  A permitted retrieval statement, on a database that accepts the
    call and gives [rows] to [fetchall], with a row ceiling [N >= 0]:
    when there are more than [N] rows the call returns the first [N] of
    them, in order and without error, and logs the truncation; when
    there are [N] rows or fewer it returns them all. *)
Theorem row_ceiling {S : Type} (drv : driver S) (config : Config)
  (sql : string) (params : option (list value)) (rows : list row)
  (w : world S) :
  Spec.accepts_all drv -> Spec.fetches drv rows ->
  SQLValidator.validate_sql sql (security_mode config) = true ->
  In (Spec.leading_keyword sql) KingbaseDatabase.retrieval_prefixes ->
  (0 <= max_result_rows config)%Z ->
  ((max_result_rows config < Z.of_nat (List.length rows))%Z ->
   fst (KingbaseDatabase.execute_query drv config sql params w)
   = Ok (firstn (Z.to_nat (max_result_rows config)) rows) /\
   List.length (firstn (Z.to_nat (max_result_rows config)) rows)
   = Z.to_nat (max_result_rows config) /\
   In (ELog (LogTruncated (max_result_rows config)))
      (trace (snd (KingbaseDatabase.execute_query drv config sql params w)))) /\
  ((Z.of_nat (List.length rows) <= max_result_rows config)%Z ->
   fst (KingbaseDatabase.execute_query drv config sql params w) = Ok rows).
Proof.
  intros Hacc Hf Hv Hk H0. apply keyword_is_prefix in Hk.
  destruct (execute_query_retrieval drv config sql params rows w Hacc Hf Hv Hk)
    as [t [Hr Ht]].
  split; intros H.
  - destruct (within_ceiling_over (max_result_rows config) rows
                (conj H0 H)) as [E L].
    rewrite Hr, Ht, E. repeat split; [exact L|].
    apply Z.ltb_lt in H. rewrite H.
    apply in_or_app. right. simpl. tauto.
  - now rewrite Hr, within_ceiling_under.
Qed.

Lemma row_ceiling_witness :
  fst (KingbaseDatabase.execute_query (Spec.scripted (Spec.numbered 8) 0)
         (Spec.config_of READONLY AllowAll 3) "select id from t" None
         (Spec.start 0))
  = Ok (Spec.numbered 3) /\
  fst (KingbaseDatabase.execute_query (Spec.scripted (Spec.numbered 3) 0)
         (Spec.config_of READONLY AllowAll 3) "select id from t" None
         (Spec.start 0))
  = Ok (Spec.numbered 3).
Proof.
  assert (A : forall rows, Spec.accepts_all (Spec.scripted rows 0))
    by (intros rows; repeat split).
  assert (K : In (Spec.leading_keyword "select id from t")
                 KingbaseDatabase.retrieval_prefixes)
    by (vm_compute; tauto).
  assert (Z0 : (0 <= 3)%Z) by discriminate.
  split.
  - pose proof (row_ceiling (Spec.scripted (Spec.numbered 8) 0)
                  (Spec.config_of READONLY AllowAll 3) "select id from t" None
                  (Spec.numbered 8) (Spec.start 0) (A _)
                  (fun _ => eq_refl) eq_refl K Z0) as [Hover _].
    exact (proj1 (Hover eq_refl)).
  - pose proof (row_ceiling (Spec.scripted (Spec.numbered 3) 0)
                  (Spec.config_of READONLY AllowAll 3) "select id from t" None
                  (Spec.numbered 3) (Spec.start 0) (A _)
                  (fun _ => eq_refl) eq_refl K Z0) as [_ Hunder].
    apply Hunder. discriminate.
Defined.

(** C9, as stated, fails.  Under FULL_ACCESS, [SELECT* FROM t] is
    permitted and its leading keyword, [SELECT*], is not a retrieval
    word; yet the call fetches and returns the rows, and commits nothing
    after the statement. *)
Lemma select_star_fetches :
  SQLValidator.validate_sql "SELECT* FROM t" FULL_ACCESS = true /\
  Spec.leading_keyword "SELECT* FROM t" = "SELECT*" /\
  ~ In (Spec.leading_keyword "SELECT* FROM t")
       KingbaseDatabase.retrieval_prefixes /\
  KingbaseDatabase.execute_query (Spec.scripted (Spec.numbered 2) 0)
    {| security_mode := FULL_ACCESS; schema_access := AllowAll;
       max_result_rows := 1000; enable_query_log := false |}
    "SELECT* FROM t" None (Spec.start 0)
  = (Ok [[("id", VInt 1)]; [("id", VInt 2)]],
     Build_world 4
       [EConnect; ECommit; ELog (LogConnected FULL_ACCESS);
        EExecute "SELECT* FROM t" None; EFetchAll; ELog (LogReturned 2);
        EClose; ELog LogClosed]) /\
  (forall n, [[("id", VInt 1)]; [("id", VInt 2)]]
             <> [KingbaseDatabase.status_record n]).
Proof.
  repeat split.
  - vm_compute. intuition discriminate.
  - discriminate.
Qed.

(** C9, amended.  A permitted statement, on a database that accepts the
    call: when the normalized text starts with one of SELECT, WITH, SHOW,
    DESCRIBE, EXPLAIN the result is the fetched rows, cut at the ceiling;
    otherwise the statement is followed by a commit and the result is
    the one status record with the affected-row count.  A statement whose
    leading keyword is one of the five words starts with it, and under
    READONLY and LIMITED_WRITE the converse holds for permitted
    statements.  Stated for a statement of 7-bit characters, where the
    model of the text is exact. *)
Theorem execute_branches_on_prefix {S : Type} (drv : driver S)
  (config : Config) (sql : string) (params : option (list value))
  (rows : list row) (n : Z) (w : world S) :
  Spec.ascii_text sql = true ->
  Spec.accepts_all drv -> Spec.fetches drv rows -> Spec.counts drv n ->
  SQLValidator.validate_sql sql (security_mode config) = true ->
  (PyStr.startswith_any KingbaseDatabase.retrieval_prefixes
     (SQLValidator.normalize sql) = true ->
   fst (KingbaseDatabase.execute_query drv config sql params w)
   = Ok (Spec.within_ceiling (max_result_rows config) rows)) /\
  (PyStr.startswith_any KingbaseDatabase.retrieval_prefixes
     (SQLValidator.normalize sql) = false ->
   fst (KingbaseDatabase.execute_query drv config sql params w)
   = Ok [KingbaseDatabase.status_record n] /\
   exists t,
     trace (snd (KingbaseDatabase.execute_query drv config sql params w))
     = (t ++ [EExecute sql params; ECommit; ELog (LogAffected n);
              EClose; ELog LogClosed])%list) /\
  (In (Spec.leading_keyword sql) KingbaseDatabase.retrieval_prefixes ->
   PyStr.startswith_any KingbaseDatabase.retrieval_prefixes
     (SQLValidator.normalize sql) = true) /\
  (security_mode config <> FULL_ACCESS ->
   PyStr.startswith_any KingbaseDatabase.retrieval_prefixes
     (SQLValidator.normalize sql) = true ->
   In (Spec.leading_keyword sql) KingbaseDatabase.retrieval_prefixes).
Proof.
  intros _ Hacc Hf Hn Hv. split; [|split; [|split]].
  - intros Hp.
    destruct (execute_query_retrieval drv config sql params rows w
                Hacc Hf Hv Hp) as [t [Hr _]].
    exact Hr.
  - intros Hp.
    destruct (execute_query_mutation drv config sql params n w
                Hacc Hn Hv Hp) as [t [Hr Ht]].
    split; [exact Hr | now exists t].
  - apply keyword_is_prefix.
  - intros Hm. apply prefix_is_keyword.
    now apply (permitted_keyword sql (security_mode config)).
Qed.

Lemma execute_branches_on_prefix_witness :
  fst (KingbaseDatabase.execute_query (Spec.scripted (Spec.numbered 2) 5)
         (Spec.config_of FULL_ACCESS AllowAll 1000) "SELECT* FROM t" None
         (Spec.start 0))
  = Ok (Spec.numbered 2) /\
  fst (KingbaseDatabase.execute_query (Spec.scripted (Spec.numbered 2) 5)
         (Spec.config_of FULL_ACCESS AllowAll 1000) "analyze t" None
         (Spec.start 0))
  = Ok [KingbaseDatabase.status_record 5].
Proof.
  assert (A : Spec.accepts_all (Spec.scripted (Spec.numbered 2) 5))
    by (repeat split).
  split.
  - pose proof (execute_branches_on_prefix
                  (Spec.scripted (Spec.numbered 2) 5)
                  (Spec.config_of FULL_ACCESS AllowAll 1000) "SELECT* FROM t"
                  None (Spec.numbered 2) 5 (Spec.start 0) eq_refl A
                  (fun _ => eq_refl) (fun _ => eq_refl) eq_refl)
      as [Hrows _].
    exact (Hrows eq_refl).
  - pose proof (execute_branches_on_prefix
                  (Spec.scripted (Spec.numbered 2) 5)
                  (Spec.config_of FULL_ACCESS AllowAll 1000) "analyze t"
                  None (Spec.numbered 2) 5 (Spec.start 0) eq_refl A
                  (fun _ => eq_refl) (fun _ => eq_refl) eq_refl)
      as [_ [Hstatus _]].
    exact (proj1 (Hstatus eq_refl)).
Defined.

(** * Further properties of the classifier *)

Section NormalizeFacts.
Import PyStr SQLValidator.

Lemma is_space_upper_char (c : ascii) : is_space (upper_char c) = is_space c.
Proof. destruct c as [[] [] [] [] [] [] [] []]; reflexivity. Qed.

Lemma upper_char_idem (c : ascii) : upper_char (upper_char c) = upper_char c.
Proof. destruct c as [[] [] [] [] [] [] [] []]; reflexivity. Qed.

Lemma upper_idem (s : string) : upper (upper s) = upper s.
Proof.
  induction s as [|c s IH]; simpl; [reflexivity|].
  now rewrite upper_char_idem, IH.
Qed.

Lemma lstrip_upper (s : string) : lstrip (upper s) = upper (lstrip s).
Proof.
  induction s as [|c s IH]; simpl; [reflexivity|].
  rewrite is_space_upper_char. now destruct (is_space c).
Qed.

Lemma is_empty_upper (s : string) : is_empty (upper s) = is_empty s.
Proof. now destruct s. Qed.

Lemma rstrip_upper (s : string) : rstrip (upper s) = upper (rstrip s).
Proof.
  induction s as [|c s IH]; simpl; [reflexivity|].
  rewrite IH, is_space_upper_char, is_empty_upper.
  now destruct (is_space c && is_empty (rstrip s)).
Qed.

Lemma strip_upper (s : string) : strip (upper s) = upper (strip s).
Proof. unfold strip. now rewrite lstrip_upper, rstrip_upper. Qed.

Lemma rstrip_idem (s : string) : rstrip (rstrip s) = rstrip s.
Proof.
  induction s as [|c s IH]; simpl; [reflexivity|].
  destruct (is_space c && is_empty (rstrip s)) eqn:E; [reflexivity|].
  simpl. now rewrite IH, E.
Qed.

Lemma lstrip_fixed (c : ascii) (r : string) :
  is_space c = false -> lstrip (String c r) = String c r.
Proof. intros H. simpl. now rewrite H. Qed.

Lemma rstrip_cons (c : ascii) (r : string) :
  is_space c = false -> rstrip (String c r) = String c (rstrip r).
Proof. intros H. simpl. now rewrite H. Qed.

Lemma strip_idem (s : string) : strip (strip s) = strip s.
Proof.
  unfold strip. destruct (lstrip_head s) as [-> | [c [r [-> Hc]]]];
    [reflexivity|].
  rewrite (rstrip_cons c r Hc), (lstrip_fixed c _ Hc).
  now rewrite (rstrip_cons c _ Hc), rstrip_idem.
Qed.

Lemma normalize_idem (sql : string) :
  normalize (normalize sql) = normalize sql.
Proof.
  unfold normalize. now rewrite <- strip_upper, upper_idem, strip_idem.
Qed.

Lemma lstrip_blank_app (pre s : string) :
  Spec.all_blank pre = true -> lstrip (pre ++ s) = lstrip s.
Proof.
  unfold Spec.all_blank. induction pre as [|c pre IH]; simpl; [reflexivity|].
  intros H. apply andb_true_iff in H as [-> H]. now apply IH.
Qed.

Lemma rstrip_blank (s : string) : Spec.all_blank s = true -> rstrip s = "".
Proof.
  unfold Spec.all_blank. induction s as [|c s IH]; simpl; [reflexivity|].
  intros H. apply andb_true_iff in H as [-> H]. now rewrite (IH H).
Qed.

Lemma rstrip_app_blank (s post : string) :
  Spec.all_blank post = true -> rstrip (s ++ post) = rstrip s.
Proof.
  intros H. induction s as [|c s IH]; simpl.
  - now apply rstrip_blank.
  - now rewrite IH.
Qed.

Lemma lstrip_app_tail (s post : string) :
  Spec.all_blank post = true ->
  exists post', Spec.all_blank post' = true /\ lstrip (s ++ post) = lstrip s ++ post'.
Proof.
  intros H. induction s as [|c s IH]; simpl.
  - exists "". split; [reflexivity|]. now apply lstrip_blank.
  - destruct (is_space c); [exact IH|]. now exists post.
Qed.

Lemma all_blank_app (a b : string) :
  Spec.all_blank (a ++ b) = Spec.all_blank a && Spec.all_blank b.
Proof.
  unfold Spec.all_blank. induction a as [|c a IH]; simpl; [reflexivity|].
  now rewrite IH, andb_assoc.
Qed.

Lemma strip_padded (pre s post : string) :
  Spec.all_blank pre = true -> Spec.all_blank post = true ->
  strip (pre ++ s ++ post) = strip s.
Proof.
  intros Hpre Hpost. unfold strip. rewrite (lstrip_blank_app _ _ Hpre).
  destruct (lstrip_app_tail s post Hpost) as [post' [Hb ->]].
  now apply rstrip_app_blank.
Qed.

Lemma normalize_padded (pre sql post : string) :
  Spec.all_blank pre = true -> Spec.all_blank post = true ->
  normalize (pre ++ sql ++ post) = normalize sql.
Proof.
  intros Hpre Hpost. unfold normalize. rewrite !upper_app.
  apply strip_padded; now apply upper_blank.
Qed.

(** No word that [split] gives has a blank in it. *)
Lemma split_run_no_blank (s : string) :
  forallb (fun c => negb (is_space c))
          (list_ascii_of_string (fst (split_run s))) = true /\
  Forall (fun w => forallb (fun c => negb (is_space c))
                           (list_ascii_of_string w) = true)
         (snd (split_run s)).
Proof.
  induction s as [|c s [IHw IHws]]; simpl; [split; [reflexivity | constructor]|].
  destruct (split_run s) as [w ws]. simpl in IHw, IHws.
  destruct (is_space c) eqn:E; simpl.
  - split; [reflexivity|]. unfold push_word.
    destruct (is_empty w); [exact IHws | now constructor].
  - rewrite E, IHw. now split.
Qed.

Lemma first_keyword_no_blank (t : string) :
  forallb (fun c => negb (is_space c))
          (list_ascii_of_string (_extract_first_keyword t)) = true.
Proof.
  unfold _extract_first_keyword, split.
  destruct (split_run_no_blank t) as [Hw Hws].
  destruct (split_run t) as [w ws]. simpl in Hw, Hws.
  unfold push_word. destruct (is_empty w); [|exact Hw].
  destruct Hws; [reflexivity | assumption].
Qed.

Lemma first_keyword_nonempty (c : ascii) (r : string) :
  is_space c = false -> _extract_first_keyword (String c r) <> "".
Proof.
  intros Hc. unfold _extract_first_keyword, split. simpl.
  destruct (split_run r) as [w ws]. rewrite Hc. simpl. discriminate.
Qed.

Lemma lstrip_empty_blank (s : string) :
  lstrip s = "" -> Spec.all_blank s = true.
Proof.
  unfold Spec.all_blank. induction s as [|c s IH]; simpl; [reflexivity|].
  destruct (is_space c); [exact IH | discriminate].
Qed.

Lemma all_blank_upper (s : string) :
  Spec.all_blank (upper s) = Spec.all_blank s.
Proof.
  unfold Spec.all_blank. induction s as [|c s IH]; simpl; [reflexivity|].
  now rewrite is_space_upper_char, IH.
Qed.

Lemma normalize_empty_blank (sql : string) :
  normalize sql = "" <-> Spec.all_blank sql = true.
Proof.
  split; [|apply blank_normalized].
  unfold normalize, strip. intros H.
  rewrite <- all_blank_upper. apply lstrip_empty_blank.
  destruct (lstrip_head (upper sql)) as [E | [c [r [E Hc]]]]; [exact E|].
  rewrite E, (rstrip_cons c r Hc) in H. discriminate.
Qed.

Lemma leading_keyword_empty_blank (sql : string) :
  Spec.leading_keyword sql = "" <-> Spec.all_blank sql = true.
Proof.
  rewrite <- normalize_empty_blank. unfold Spec.leading_keyword. split.
  - intros H. destruct (strip_head (upper sql)) as [E | [c [r [E Hc]]]];
      [exact E|].
    unfold normalize in H. rewrite E in H.
    now destruct (first_keyword_nonempty c r Hc).
  - now intros ->.
Qed.

End NormalizeFacts.

(** X1.  Classification ignores letter case and surrounding blanks: two
    statements with the same upper-case form, one of them padded with
    blanks on either side, get the same decision and the same reason. *)
Theorem classification_ignores_case_and_padding
  (pre a post b : string) (mode : SecurityMode) :
  PyStr.upper a = PyStr.upper b ->
  Spec.all_blank pre = true -> Spec.all_blank post = true ->
  SQLValidator.validate_sql (pre ++ a ++ post) mode
  = SQLValidator.validate_sql b mode /\
  SQLValidator.get_error_message (pre ++ a ++ post) mode
  = SQLValidator.get_error_message b mode.
Proof.
  intros Hu Hpre Hpost.
  assert (E : SQLValidator.normalize (pre ++ a ++ post)
              = SQLValidator.normalize b).
  { rewrite (normalize_padded pre a post Hpre Hpost).
    unfold SQLValidator.normalize. now rewrite Hu. }
  unfold SQLValidator.validate_sql, SQLValidator.get_error_message.
  now rewrite E.
Qed.

Lemma classification_ignores_case_and_padding_witness :
  SQLValidator.validate_sql "   drop Table t  " LIMITED_WRITE
  = SQLValidator.validate_sql "DROP TABLE T" LIMITED_WRITE /\
  SQLValidator.get_error_message "   drop Table t  " LIMITED_WRITE
  = SQLValidator.get_error_message "DROP TABLE T" LIMITED_WRITE.
Proof.
  exact (classification_ignores_case_and_padding
           "   " "drop Table t" "  " "DROP TABLE T" LIMITED_WRITE
           eq_refl eq_refl eq_refl).
Defined.

(** X2.  For a statement of 7-bit characters, the leading keyword is
    empty exactly for a blank statement, it never contains a blank, and
    the normalized text starts with it. *)
Theorem leading_keyword_shape (sql : string) :
  Spec.ascii_text sql = true ->
  (Spec.leading_keyword sql = "" <-> Spec.all_blank sql = true) /\
  forallb (fun c => negb (PyStr.is_space c))
          (list_ascii_of_string (Spec.leading_keyword sql)) = true /\
  exists rest,
    SQLValidator.normalize sql = Spec.leading_keyword sql ++ rest.
Proof.
  intros _. split; [apply leading_keyword_empty_blank|].
  split; [apply first_keyword_no_blank | apply leading_keyword_prefix].
Qed.

Lemma leading_keyword_shape_witness :
  (Spec.leading_keyword "  select 1 " = "" <->
   Spec.all_blank "  select 1 " = true) /\
  forallb (fun c => negb (PyStr.is_space c))
          (list_ascii_of_string (Spec.leading_keyword "  select 1 ")) = true /\
  exists rest,
    SQLValidator.normalize "  select 1 "
    = Spec.leading_keyword "  select 1 " ++ rest.
Proof. exact (leading_keyword_shape "  select 1 " eq_refl). Defined.

(** X3.  A statement that READONLY permits and whose leading keyword is
    not SELECT is permitted under LIMITED_WRITE as well. *)
Theorem readonly_permit_carries_over (sql : string) :
  SQLValidator.validate_sql sql READONLY = true ->
  Spec.leading_keyword sql <> "SELECT" ->
  SQLValidator.validate_sql sql LIMITED_WRITE = true.
Proof.
  unfold SQLValidator.validate_sql, SQLValidator._validate_readonly,
    SQLValidator._validate_limited_write.
  fold (Spec.leading_keyword sql). intros H N.
  apply String.eqb_neq in N. rewrite N in H.
  unfold PyStr.mem in *. rewrite existsb_app.
  destruct (existsb _ SQLValidator.READONLY_OPERATIONS); [|discriminate].
  cbn [orb negb] in *. rewrite existsb_app in H.
  apply negb_true_iff, orb_false_iff in H as [_ H]. now rewrite H.
Qed.

Lemma readonly_permit_carries_over_witness :
  SQLValidator.validate_sql "explain analyze select 1" LIMITED_WRITE = true.
Proof.
  apply (readonly_permit_carries_over "explain analyze select 1").
  - reflexivity.
  - discriminate.
Defined.

Section SelectFacts.
Import SQLValidator.

Lemma phrase_contains_first (w1 w2 t : string) :
  Spec.whole_word_phrase w1 w2 t -> Spec.occurs_in w1 t.
Proof.
  intros [pre [gap [post [-> _]]]]. now exists pre, (gap ++ w2 ++ post).
Qed.

Lemma update_set_contains_update (t : string) :
  Spec.update_set_phrase t -> Spec.occurs_in "UPDATE" t.
Proof.
  intros (pre & g1 & id & g2 & post & -> & _). now eexists pre, _.
Qed.

End SelectFacts.

(** X4.  Under READONLY a SELECT of 7-bit characters is permitted
    whenever none of the words DROP, TRUNCATE, DELETE, INSERT, UPDATE,
    CREATE, ALTER occurs in its normalized text. *)
Theorem select_without_keywords_permitted (sql : string) :
  Spec.ascii_text sql = true ->
  Spec.leading_keyword sql = "SELECT" ->
  (forall k,
     In k ["DROP"; "TRUNCATE"; "DELETE"; "INSERT"; "UPDATE"; "CREATE"; "ALTER"]
     -> ~ Spec.occurs_in k (SQLValidator.normalize sql)) ->
  SQLValidator.validate_sql sql READONLY = true.
Proof.
  intros _ Hk Hn.
  destruct (SQLValidator.validate_sql sql READONLY) eqn:E; [reflexivity|].
  apply (readonly_select sql Hk) in E. exfalso.
  destruct E as [E | [E | [E | [E | [E | [E | E]]]]]];
    try apply phrase_contains_first in E;
    try apply update_set_contains_update in E;
    revert E; apply Hn; simpl; tauto.
Qed.

Lemma select_without_keywords_permitted_witness :
  SQLValidator.validate_sql "select name from staff" READONLY = true.
Proof.
  apply (select_without_keywords_permitted "select name from staff").
  - reflexivity.
  - reflexivity.
  - intros k Hk Ho. apply contains_spec in Ho. simpl in Hk.
    repeat (destruct Hk as [<- | Hk]; [vm_compute in Ho; discriminate|]).
    destruct Hk.
Defined.

(** X5.  When the leading keyword is one the mode accepts, so that a
    denial can only come from the scan of the text, the reason reports
    the leading keyword as an unsupported operation and does not name
    the word the scan found. *)
Theorem reason_names_leading_keyword (sql : string) :
  (In (Spec.leading_keyword sql) SQLValidator.READONLY_OPERATIONS ->
   SQLValidator.get_error_message sql READONLY
   = "只读模式下不支持的操作: " ++ Spec.leading_keyword sql) /\
  (In (Spec.leading_keyword sql)
      (SQLValidator.READONLY_OPERATIONS ++ SQLValidator.WRITE_OPERATIONS)%list ->
   SQLValidator.get_error_message sql LIMITED_WRITE
   = "限制写入模式下不支持的操作: " ++ Spec.leading_keyword sql).
Proof.
  unfold SQLValidator.get_error_message. fold (Spec.leading_keyword sql).
  split; intros H; simpl in H;
    repeat (destruct H as [<- | H]; [reflexivity|]); destruct H.
Qed.

Lemma reason_names_leading_keyword_witness :
  SQLValidator.get_error_message "SELECT * FROM created_items" LIMITED_WRITE
  = "限制写入模式下不支持的操作: SELECT".
Proof.
  apply (proj2 (reason_names_leading_keyword "SELECT * FROM created_items")).
  vm_compute. tauto.
Defined.

(** * Further properties of the mediator *)

Section RunFacts.
Import PyStr SQLValidator KingbaseDatabase Notions.
Context {S : Type}.
Variable drv : driver S.
Variable config : Config.

Lemma calm_nil : calm [].
Proof. now split. Qed.

Lemma calm_app (t u : list event) : calm t -> calm u -> calm (t ++ u).
Proof.
  unfold calm, closes, opens. intros [Ht Ht'] [Hu Hu'].
  rewrite !filter_app, !length_app. lia.
Qed.

Lemma calm_one (e : event) :
  is_close e = false -> is_connect e = false -> calm [e].
Proof.
  intros Hc Ho. unfold calm, closes, opens. simpl. now rewrite Hc, Ho.
Qed.

Lemma quiet_ret {A} (a : A) : quiet (@ret S A a).
Proof.
  intros w. split; [|discriminate].
  exists []. split; [now rewrite app_nil_r | apply calm_nil].
Qed.

Lemma quiet_raise_db {A} (e : string) : quiet (@raise S A (Psycopg2Error e)).
Proof.
  intros w. split; [|discriminate].
  exists []. split; [now rewrite app_nil_r | apply calm_nil].
Qed.

Lemma quiet_log (r : log_record) : quiet (@log S r).
Proof.
  intros w. split; [|discriminate].
  exists [ELog r]. split; [reflexivity | now apply calm_one].
Qed.

Lemma quiet_call {A} (e : event) (op : S -> (string + A) * S) :
  is_close e = false -> is_connect e = false -> quiet (call e op).
Proof.
  intros Hc Ho w. unfold call. destruct (op (db w)) as [[msg | a] d]; simpl.
  - split; [|discriminate]. exists [e]. split; [reflexivity | now apply calm_one].
  - split; [|discriminate]. exists [e]. split; [reflexivity | now apply calm_one].
Qed.

Lemma quiet_bind {A B} (m : M S A) (k : A -> M S B) :
  quiet m -> (forall a, quiet (k a)) -> quiet (bind m k).
Proof.
  intros Hm Hk w. unfold bind. destruct (Hm w) as [[t [Ht Hc]] Hv].
  destruct (m w) as [[a | e] w1]; simpl in *.
  - destruct (Hk a w1) as [[u [Hu Hcu]] Hvu]. split; [|exact Hvu].
    exists (t ++ u)%list. rewrite Hu, Ht, app_assoc.
    split; [reflexivity | now apply calm_app].
  - split; [now exists t|].
    intros msg [= ->]. now apply (Hv msg).
Qed.

Lemma quiet_try_except_db {A} (m : M S A) (h : string -> M S A) :
  quiet m -> (forall e, quiet (h e)) -> quiet (try_except_db m h).
Proof.
  intros Hm Hh w. unfold try_except_db. destruct (Hm w) as [[t [Ht Hc]] Hv].
  destruct (m w) as [[a | [msg | e]] w1]; simpl in *.
  - split; [now exists t | discriminate].
  - now destruct (Hv msg).
  - destruct (Hh e w1) as [[u [Hu Hcu]] Hvu]. split; [|exact Hvu].
    exists (t ++ u)%list. rewrite Hu, Ht, app_assoc.
    split; [reflexivity | now apply calm_app].
Qed.

Lemma quiet_configure_session : quiet (configure_session drv config).
Proof.
  unfold configure_session, cur_execute, conn_commit.
  repeat (apply quiet_bind; [|intros ?]);
    try (destruct (is_readonly_mode config));
    repeat (apply quiet_bind; [|intros ?]);
    first [ apply quiet_call; reflexivity | apply quiet_log | apply quiet_ret ].
Qed.

Lemma quiet_statement (sql : string) (params : option (list value)) :
  quiet (statement drv config sql params).
Proof.
  assert (Hrc : quiet (cur_rowcount drv)).
  { intros w. split; [|discriminate]. exists []. simpl.
    split; [now rewrite app_nil_r | apply calm_nil]. }
  unfold statement. apply quiet_try_except_db.
  - apply quiet_bind; [apply quiet_call; reflexivity | intros _].
    destruct (startswith_any _ _).
    + apply quiet_bind; [apply quiet_call; reflexivity | intros results].
      apply quiet_bind.
      * destruct (_ <? _)%Z; [|apply quiet_ret].
        apply quiet_bind; [apply quiet_log | intros _; apply quiet_ret].
      * intros r. apply quiet_bind; [apply quiet_log | intros _; apply quiet_ret].
    + apply quiet_bind; [apply quiet_call; reflexivity | intros _].
      apply quiet_bind; [exact Hrc | intros n].
      apply quiet_bind; [apply quiet_log | intros _; apply quiet_ret].
  - intros e. apply quiet_bind; [apply quiet_log | intros _; apply quiet_raise_db].
Qed.

(** [get_connection] around a quiet body: the connection it opens is
    the one it closes, last of all; when the database cannot be reached
    the body is not run. *)
Lemma get_connection_released {A} (body : M S A) (w : world S) :
  quiet body ->
  (fst (db_connect drv (db w)) = inr tt ->
   exists t,
     trace (snd (get_connection drv config body w))
     = (trace w ++ [EConnect] ++ t ++ [EClose; ELog LogClosed])%list /\
     closes t = 0 /\ opens t = 0) /\
  (forall e,
     fst (db_connect drv (db w)) = inl e ->
     get_connection drv config body w
     = (Raise (Psycopg2Error e),
        Build_world (snd (db_connect drv (db w)))
          (trace w ++ [EConnect; ELog (LogConnectionError e)]))) /\
  (forall msg,
     fst (get_connection drv config body w) <> Raise (ValueError msg)).
Proof.
  intros Hb. unfold get_connection, connect, call.
  destruct (db_connect drv (db w)) as [[e | []] d]; simpl.
  - split; [discriminate|]. split; [|discriminate].
    intros e' [= ->]. unfold try_except_db, raise, bind, log, emit. simpl.
    now rewrite <- app_assoc.
  - assert (Hq : quiet (try_except_db
                          (bind (configure_session drv config) (fun _ => body))
                          (fun e => bind (log (LogConnectionError e))
                                      (fun _ => raise (Psycopg2Error e))))).
    { apply quiet_try_except_db.
      - apply quiet_bind; [apply quiet_configure_session | intros _; exact Hb].
      - intros e. apply quiet_bind; [apply quiet_log | intros _; apply quiet_raise_db]. }
    specialize (Hq (Build_world d (trace w ++ [EConnect]))).
    destruct Hq as [[t [Ht Hc]] Hv]. unfold try_finally.
    destruct (try_except_db _ _ _) as [r w2]. simpl in *.
    split; [|split; [discriminate | exact Hv]].
    intros _. exists t. split; [|exact Hc].
    rewrite Ht, <- !app_assoc. reflexivity.
Qed.

(** A permitted statement: [execute_query] is [get_connection] around
    the statement, after the query log. *)
Lemma execute_query_open (sql : string) (params : option (list value))
  (w : world S) :
  validate_sql sql (security_mode config) = true ->
  execute_query drv config sql params w
  = get_connection drv config (statement drv config sql params)
      (Build_world (db w) (trace w ++ query_log config sql)).
Proof.
  intros Hv. unfold execute_query, query_log. rewrite Hv. cbn [negb].
  destruct (enable_query_log config).
  - reflexivity.
  - unfold bind, ret. rewrite app_nil_r. now destruct w.
Qed.

Lemma execute_query_session (sql : string) (params : option (list value))
  (w : world S) :
  validate_sql sql (security_mode config) = true ->
  (fst (db_connect drv (db w)) = inr tt ->
   exists t,
     trace (snd (execute_query drv config sql params w))
     = (trace w ++ query_log config sql ++ [EConnect] ++ t
          ++ [EClose; ELog LogClosed])%list /\
     closes t = 0 /\ opens t = 0) /\
  (forall e,
     fst (db_connect drv (db w)) = inl e ->
     fst (execute_query drv config sql params w) = Raise (Psycopg2Error e) /\
     trace (snd (execute_query drv config sql params w))
     = (trace w ++ query_log config sql
          ++ [EConnect; ELog (LogConnectionError e)])%list) /\
  (forall msg,
     fst (execute_query drv config sql params w) <> Raise (ValueError msg)).
Proof.
  intros Hv. rewrite (execute_query_open sql params w Hv).
  destruct (get_connection_released
              (statement drv config sql params)
              (Build_world (db w) (trace w ++ query_log config sql))
              (quiet_statement sql params)) as [Hok [Hfail Hval]].
  cbn [db trace] in *. split; [|split; [|exact Hval]].
  - intros Hc. destruct (Hok Hc) as [t [Ht Hcl]]. exists t.
    split; [|exact Hcl]. now rewrite Ht, <- app_assoc.
  - intros e He. rewrite (Hfail e He). cbn [fst snd trace].
    split; [reflexivity | now rewrite <- app_assoc].
Qed.

End RunFacts.

(** X6.  A permitted statement on a database that can be reached: the
    call connects once and closes that connection as the last thing it
    does, whether the statement succeeds or the database fails at any
    later point; nothing in between connects again or closes a
    connection. *)
Theorem session_always_released {S : Type} (drv : driver S) (config : Config)
  (sql : string) (params : option (list value)) (w : world S) :
  SQLValidator.validate_sql sql (security_mode config) = true ->
  fst (db_connect drv (db w)) = inr tt ->
  exists t,
    trace (snd (KingbaseDatabase.execute_query drv config sql params w))
    = (trace w ++ Notions.query_log config sql ++ [EConnect] ++ t
         ++ [EClose; ELog LogClosed])%list /\
    Notions.closes t = 0 /\ Notions.opens t = 0.
Proof.
  intros Hv Hc. now apply (execute_query_session drv config sql params w Hv).
Qed.

Lemma session_always_released_witness :
  exists t,
    trace (snd (KingbaseDatabase.execute_query
                  (Notions.picky "select 1" "syntax error" [])
                  (Spec.config_of READONLY AllowAll 10) "select 1" None
                  (Spec.start 0)))
    = ([] ++ Notions.query_log (Spec.config_of READONLY AllowAll 10) "select 1"
          ++ [EConnect] ++ t ++ [EClose; ELog LogClosed])%list /\
    Notions.closes t = 0 /\ Notions.opens t = 0.
Proof.
  exact (session_always_released
           (Notions.picky "select 1" "syntax error" [])
           (Spec.config_of READONLY AllowAll 10) "select 1" None
           (Spec.start 0) eq_refl eq_refl).
Defined.

(** X7.  A permitted statement on a database that cannot be reached:
    the call raises the driver's error; after the attempt to connect
    only the error is logged, so no statement is sent and no connection
    is closed. *)
Theorem unreachable_database_raises {S : Type} (drv : driver S)
  (config : Config) (sql : string) (params : option (list value))
  (w : world S) (e : string) :
  SQLValidator.validate_sql sql (security_mode config) = true ->
  fst (db_connect drv (db w)) = inl e ->
  fst (KingbaseDatabase.execute_query drv config sql params w)
  = Raise (Psycopg2Error e) /\
  trace (snd (KingbaseDatabase.execute_query drv config sql params w))
  = (trace w ++ Notions.query_log config sql
       ++ [EConnect; ELog (LogConnectionError e)])%list.
Proof.
  intros Hv Hc. now apply (execute_query_session drv config sql params w Hv).
Qed.

Lemma unreachable_database_raises_witness :
  fst (KingbaseDatabase.execute_query Spec.unreachable
         (Spec.config_of LIMITED_WRITE AllowAll 10) "update t set c = 1" None
         (Spec.start tt))
  = Raise (Psycopg2Error "connection refused").
Proof.
  exact (proj1 (unreachable_database_raises Spec.unreachable
                  (Spec.config_of LIMITED_WRITE AllowAll 10)
                  "update t set c = 1" None (Spec.start tt)
                  "connection refused" eq_refl eq_refl)).
Defined.

Section SessionFacts.
Import PyStr SQLValidator KingbaseDatabase Notions.
Context {S : Type}.
Variable drv : driver S.
Variable config : Config.

Lemma accepts_all_session : Spec.accepts_all drv -> session_ok drv config.
Proof. intros [Hc [He Hm]]. repeat split; auto. Qed.

Lemma accepts_all_serves (sql : string) : Spec.accepts_all drv -> serves drv sql.
Proof. intros [_ [He _]] p s. apply He. Qed.

Lemma returns_bind {A B} (m : M S A) (k : A -> M S B) (Q : B -> Prop) :
  (forall a, returns (k a) Q) -> returns (bind m k) Q.
Proof.
  intros Hk w b H. unfold bind in H.
  destruct (m w) as [[a | e] w1]; [exact (Hk a w1 b H) | discriminate].
Qed.

Lemma returns_ret {A} (a : A) (Q : A -> Prop) : Q a -> returns (@ret S A a) Q.
Proof. intros H w b [= <-]. exact H. Qed.

Lemma returns_try_except_db {A} (m : M S A) (h : string -> M S A)
  (Q : A -> Prop) :
  returns m Q -> (forall e, returns (h e) Q) -> returns (try_except_db m h) Q.
Proof.
  intros Hm Hh w a H. unfold try_except_db in H.
  destruct (m w) as [[b | [msg | e]] w1] eqn:E.
  - apply (Hm w). now rewrite E.
  - discriminate.
  - exact (Hh e w1 a H).
Qed.

Lemma returns_reraise {A} (r : log_record) (e : string) (Q : A -> Prop) :
  returns (bind (@log S r) (fun _ => raise (Psycopg2Error e))) Q.
Proof. intros w a H. discriminate. Qed.

Lemma returns_get_connection {A} (body : M S A) (Q : A -> Prop) :
  returns body Q -> returns (get_connection drv config body) Q.
Proof.
  intros Hb w a H. unfold get_connection in H.
  destruct (connect drv w) as [[[] | e] w1].
  - unfold try_finally in H.
    destruct (try_except_db _ _ w1) as [r w2] eqn:E. simpl in H. subst r.
    refine (returns_try_except_db _ _ Q _ _ w1 a _); [| |now rewrite E].
    + apply returns_bind. intros _. exact Hb.
    + intros e. apply returns_reraise.
  - unfold try_except_db, raise in H. destruct e; discriminate.
Qed.

Lemma within_ceiling_length (limit : Z) (rows : list row) :
  (0 <= limit)%Z ->
  List.length (Spec.within_ceiling limit rows) <= Z.to_nat limit.
Proof.
  intros H. unfold Spec.within_ceiling.
  destruct (limit <? Z.of_nat (List.length rows))%Z eqn:E.
  - rewrite slice_to_firstn by exact H. rewrite length_firstn. lia.
  - apply Z.ltb_ge in E. lia.
Qed.

Lemma returns_bind_with {A B} (m : M S A) (k : A -> M S B)
  (P : A -> Prop) (Q : B -> Prop) :
  returns m P -> (forall a, P a -> returns (k a) Q) -> returns (bind m k) Q.
Proof.
  intros Hm Hk w b H. unfold bind in H.
  destruct (m w) as [[a | e] w1] eqn:E; [|discriminate].
  refine (Hk a _ w1 b H). apply (Hm w). now rewrite E.
Qed.

(** Whatever a retrieval returns has at most [max_result_rows] rows. *)
Lemma returns_statement_bounded (sql : string) (params : option (list value)) :
  (0 <= max_result_rows config)%Z ->
  startswith_any retrieval_prefixes (normalize sql) = true ->
  returns (statement drv config sql params)
    (fun out => List.length out <= Z.to_nat (max_result_rows config)).
Proof.
  intros H0 Hp. unfold statement. fold (normalize sql). rewrite Hp.
  apply returns_try_except_db; [|intros e; apply returns_reraise].
  apply returns_bind. intros _. apply returns_bind. intros results.
  apply (returns_bind_with _ _
           (fun r => r = Spec.within_ceiling (max_result_rows config) results)).
  - unfold Spec.within_ceiling.
    destruct (max_result_rows config <? Z.of_nat (List.length results))%Z.
    + apply returns_bind. intros _. now apply returns_ret.
    + now apply returns_ret.
  - intros r ->. apply returns_bind. intros _. apply returns_ret.
    rewrite length_map. now apply within_ceiling_length.
Qed.

End SessionFacts.

Section SessionRuns.
Import PyStr SQLValidator KingbaseDatabase Notions.
Context {S : Type}.
Variable drv : driver S.
Variable config : Config.

Lemma configure_session_run (w : world S) :
  session_ok drv config ->
  exists d,
    configure_session drv config w
    = (Ok tt,
       Build_world d
         (trace w ++ pragmas config
            ++ [ECommit; ELog (LogConnected (security_mode config))])).
Proof.
  intros [_ [Hc Hset]]. unfold configure_session, pragmas, cur_execute, conn_commit.
  destruct (is_readonly_mode config).
  - assert (H1 : forall s,
               fst (db_execute drv "SET default_transaction_read_only = on;"
                      None s) = inr tt)
      by (intros s; apply (Hset eq_refl s)).
    assert (H2 : forall s,
               fst (db_execute drv "SET transaction_read_only = on;" None s)
               = inr tt)
      by (intros s; apply (Hset eq_refl s)).
    erewrite bind_ok.
    2:{ erewrite bind_ok by (apply call_accepted; apply H1).
        erewrite bind_ok by (apply call_accepted; apply H2).
        reflexivity. }
    erewrite bind_ok by (apply call_accepted; apply Hc).
    eexists. unfold log, emit. cbn [db trace]. rewrite <- !app_assoc.
    reflexivity.
  - erewrite bind_ok by reflexivity.
    erewrite bind_ok by (apply call_accepted; apply Hc).
    eexists. unfold log, emit. cbn [db trace]. rewrite <- !app_assoc.
    reflexivity.
Qed.

(** On such a database [get_connection] runs the body on a session that
    is set up, and closes the connection whatever the body does. *)
Lemma get_connection_session (w : world S) :
  session_ok drv config ->
  exists d,
    forall A (body : M S A),
      get_connection drv config body w
      = try_finally
          (try_except_db body
             (fun e => bind (log (LogConnectionError e))
                         (fun _ => raise (Psycopg2Error e))))
          (bind (conn_close drv) (fun _ => log LogClosed))
          (Build_world d (trace w ++ session_events config)).
Proof.
  intros Hs. pose proof Hs as [Hconn _].
  destruct (configure_session_run
              (Build_world (snd (db_connect drv (db w))) (trace w ++ [EConnect]))
              Hs) as [d Hd].
  exists d. intros A body. unfold get_connection, connect.
  rewrite (call_accepted EConnect (db_connect drv) tt w Hconn).
  unfold try_finally, try_except_db at 1.
  rewrite (bind_ok _ _ _ _ _ Hd). cbn [trace] in *.
  unfold session_events, try_except_db. rewrite <- !app_assoc. reflexivity.
Qed.

Lemma statement_fetch (sql : string) (params : option (list value))
  (rows : list row) (w : world S) :
  serves drv sql -> Spec.fetches drv rows ->
  startswith_any retrieval_prefixes (normalize sql) = true ->
  exists d,
    statement drv config sql params w
    = (Ok (Spec.within_ceiling (max_result_rows config) rows),
       Build_world d
         (trace w ++ [EExecute sql params; EFetchAll]
            ++ (if (max_result_rows config <? Z.of_nat (List.length rows))%Z
                then [ELog (LogTruncated (max_result_rows config))] else [])
            ++ [ELog (LogReturned
                        (List.length
                           (Spec.within_ceiling (max_result_rows config)
                              rows)))])).
Proof.
  intros He Hf Hp. unfold statement, try_except_db, cur_execute, cur_fetchall.
  fold (normalize sql). rewrite Hp.
  erewrite bind_ok by (apply call_accepted; apply He).
  erewrite bind_ok by (apply call_accepted; apply Hf).
  unfold Spec.within_ceiling.
  destruct (max_result_rows config <? Z.of_nat (List.length rows))%Z;
    eexists; unfold bind, log, emit, ret; cbn [db trace];
    rewrite map_id, <- !app_assoc; reflexivity.
Qed.

Lemma statement_rejected (sql e : string) (params : option (list value))
  (w : world S) :
  rejects drv sql e ->
  exists d,
    statement drv config sql params w
    = (Raise (Psycopg2Error e),
       Build_world d (trace w ++ [EExecute sql params; ELog (LogSqlFailed e)])).
Proof.
  intros He. unfold statement, try_except_db, cur_execute, bind, call.
  specialize (He params (db w)).
  destruct (db_execute drv sql params (db w)) as [r d]. simpl in He. subst r.
  eexists. unfold log, emit, raise. cbn [db trace]. rewrite <- !app_assoc.
  reflexivity.
Qed.

(** The first thing the statement body does is to send the statement. *)
Lemma statement_starts (sql : string) (params : option (list value))
  (w : world S) :
  exists t,
    trace (snd (statement drv config sql params w))
    = (trace w ++ EExecute sql params :: t)%list.
Proof.
  unfold statement.
  match goal with
  | |- context [bind (cur_execute drv sql params) (fun _ => ?k)] =>
      set (rest := k)
  end.
  assert (Hq : quiet rest).
  { unfold rest. destruct (startswith_any _ _).
    - apply quiet_bind; [apply quiet_call; reflexivity | intros results].
      apply quiet_bind.
      + destruct (_ <? _)%Z; [|apply quiet_ret].
        apply quiet_bind; [apply quiet_log | intros _; apply quiet_ret].
      + intros r. apply quiet_bind; [apply quiet_log | intros _; apply quiet_ret].
    - apply quiet_bind; [apply quiet_call; reflexivity | intros _].
      apply quiet_bind.
      + intros w0. split; [|discriminate]. exists []. simpl.
        split; [now rewrite app_nil_r | apply calm_nil].
      + intros n. apply quiet_bind; [apply quiet_log | intros _; apply quiet_ret]. }
  clearbody rest.
  unfold try_except_db, cur_execute, bind, call.
  destruct (db_execute drv sql params (db w)) as [[e | []] d].
  - eexists. unfold log, emit, raise. cbn [snd db trace].
    rewrite <- !app_assoc. reflexivity.
  - specialize (Hq (Build_world d (trace w ++ [EExecute sql params]))).
    destruct Hq as [[u [Hu _]] _]. cbn [trace] in Hu.
    destruct (rest _) as [[out | [msg | e]] w2]; cbn [snd trace] in *.
    + exists u. now rewrite Hu, <- app_assoc.
    + exists u. now rewrite Hu, <- app_assoc.
    + exists (u ++ [ELog (LogSqlFailed e)])%list.
      unfold log, emit, raise. cbn [snd trace db].
      now rewrite Hu, <- !app_assoc.
Qed.

End SessionRuns.

Section QueryRuns.
Import PyStr SQLValidator KingbaseDatabase Notions.
Context {S : Type}.
Variable drv : driver S.
Variable config : Config.

Lemma execute_query_fetch (sql : string) (params : option (list value))
  (rows : list row) (w : world S) :
  session_ok drv config -> serves drv sql -> Spec.fetches drv rows ->
  validate_sql sql (security_mode config) = true ->
  startswith_any retrieval_prefixes (normalize sql) = true ->
  fst (execute_query drv config sql params w)
  = Ok (Spec.within_ceiling (max_result_rows config) rows) /\
  trace (snd (execute_query drv config sql params w))
  = (trace w ++ query_log config sql ++ session_events config
       ++ [EExecute sql params; EFetchAll]
       ++ (if (max_result_rows config <? Z.of_nat (List.length rows))%Z
           then [ELog (LogTruncated (max_result_rows config))] else [])
       ++ [ELog (LogReturned
                   (List.length
                      (Spec.within_ceiling (max_result_rows config) rows)));
           EClose; ELog LogClosed])%list.
Proof.
  intros Hs He Hf Hv Hp. rewrite (execute_query_open drv config sql params w Hv).
  destruct (get_connection_session drv config
              (Build_world (db w) (trace w ++ query_log config sql)) Hs)
    as [d Hrun].
  rewrite Hrun. cbn [trace].
  destruct (statement_fetch drv config sql params rows
              (Build_world d ((trace w ++ query_log config sql)
                                ++ session_events config)) He Hf Hp)
    as [d' Hst].
  unfold try_finally, try_except_db. rewrite Hst.
  unfold bind, conn_close, log, emit. cbn [fst snd trace db].
  split; [reflexivity|]. now rewrite <- !app_assoc.
Qed.

Lemma execute_query_rejected (sql e : string) (params : option (list value))
  (w : world S) :
  session_ok drv config -> rejects drv sql e ->
  validate_sql sql (security_mode config) = true ->
  fst (execute_query drv config sql params w) = Raise (Psycopg2Error e) /\
  trace (snd (execute_query drv config sql params w))
  = (trace w ++ query_log config sql ++ session_events config
       ++ [EExecute sql params; ELog (LogSqlFailed e);
           ELog (LogConnectionError e); EClose; ELog LogClosed])%list.
Proof.
  intros Hs He Hv. rewrite (execute_query_open drv config sql params w Hv).
  destruct (get_connection_session drv config
              (Build_world (db w) (trace w ++ query_log config sql)) Hs)
    as [d Hrun].
  rewrite Hrun. cbn [trace].
  destruct (statement_rejected drv config sql e params
              (Build_world d ((trace w ++ query_log config sql)
                                ++ session_events config)) He)
    as [d' Hst].
  unfold try_finally, try_except_db. rewrite Hst.
  unfold bind, conn_close, log, emit, raise. cbn [fst snd trace db].
  split; [reflexivity|]. now rewrite <- !app_assoc.
Qed.

Lemma execute_query_sends (sql : string) (params : option (list value))
  (w : world S) :
  session_ok drv config ->
  validate_sql sql (security_mode config) = true ->
  exists t,
    trace (snd (execute_query drv config sql params w))
    = (trace w ++ query_log config sql ++ session_events config
         ++ EExecute sql params :: t)%list.
Proof.
  intros Hs Hv. rewrite (execute_query_open drv config sql params w Hv).
  destruct (get_connection_session drv config
              (Build_world (db w) (trace w ++ query_log config sql)) Hs)
    as [d Hrun].
  rewrite Hrun. cbn [trace].
  destruct (statement_starts drv config sql params
              (Build_world d ((trace w ++ query_log config sql)
                                ++ session_events config)))
    as [t Ht].
  cbn [trace] in Ht. unfold try_finally, try_except_db.
  destruct (statement drv config sql params _) as [[out | [msg | e]] w2];
    cbn [snd trace] in Ht;
    unfold bind, conn_close, log, emit, raise; cbn [fst snd trace db];
    rewrite Ht, <- !app_assoc; cbn [app]; eexists; reflexivity.
Qed.

End QueryRuns.

(** X9.  Whatever the database does, a retrieval that returns gives at
    most [max_result_rows] rows (for a ceiling that is not negative). *)
Theorem never_more_than_ceiling {S : Type} (drv : driver S) (config : Config)
  (sql : string) (params : option (list value)) (w : world S)
  (out : list row) :
  (0 <= max_result_rows config)%Z ->
  PyStr.startswith_any KingbaseDatabase.retrieval_prefixes
    (SQLValidator.normalize sql) = true ->
  fst (KingbaseDatabase.execute_query drv config sql params w) = Ok out ->
  List.length out <= Z.to_nat (max_result_rows config).
Proof.
  intros H0 Hp H.
  destruct (SQLValidator.validate_sql sql (security_mode config)) eqn:Hv.
  - rewrite (execute_query_open drv config sql params w Hv) in H.
    exact (returns_get_connection drv config _ _
             (returns_statement_bounded drv config sql params H0 Hp) _ _ H).
  - rewrite (execute_query_denied drv config sql params w Hv) in H.
    discriminate.
Qed.

Lemma never_more_than_ceiling_witness :
  List.length (Spec.numbered 3) <= Z.to_nat 3.
Proof.
  apply (never_more_than_ceiling (Spec.scripted (Spec.numbered 8) 0)
           (Spec.config_of READONLY AllowAll 3) "select id from t" None
           (Spec.start 0) (Spec.numbered 3)).
  - discriminate.
  - reflexivity.
  - reflexivity.
Defined.

(** X10.  A negative ceiling [-k] does not raise: a retrieval then
    returns the fetched rows without the last [k] of them (none at all
    when there are [k] rows or fewer). *)
Theorem negative_ceiling_drops_last_rows {S : Type} (drv : driver S)
  (config : Config) (sql : string) (params : option (list value))
  (rows : list row) (w : world S) :
  Spec.accepts_all drv -> Spec.fetches drv rows ->
  SQLValidator.validate_sql sql (security_mode config) = true ->
  PyStr.startswith_any KingbaseDatabase.retrieval_prefixes
    (SQLValidator.normalize sql) = true ->
  (max_result_rows config < 0)%Z ->
  fst (KingbaseDatabase.execute_query drv config sql params w)
  = Ok (firstn (List.length rows - Z.to_nat (- max_result_rows config)) rows).
Proof.
  intros Hacc Hf Hv Hp Hneg.
  destruct (execute_query_fetch drv config sql params rows w
              (accepts_all_session drv config Hacc)
              (accepts_all_serves drv sql Hacc) Hf Hv Hp) as [-> _].
  unfold Spec.within_ceiling, slice_to.
  assert (E1 : (max_result_rows config <? Z.of_nat (List.length rows))%Z = true)
    by (apply Z.ltb_lt; lia).
  assert (E2 : (0 <=? max_result_rows config)%Z = false)
    by (apply Z.leb_gt; lia).
  rewrite E1, E2. do 2 f_equal. lia.
Qed.

Lemma negative_ceiling_drops_last_rows_witness :
  fst (KingbaseDatabase.execute_query (Spec.scripted (Spec.numbered 5) 0)
         (Spec.config_of FULL_ACCESS AllowAll (-2)) "select id from t" None
         (Spec.start 0))
  = Ok (Spec.numbered 3).
Proof.
  exact (negative_ceiling_drops_last_rows
           (Spec.scripted (Spec.numbered 5) 0)
           (Spec.config_of FULL_ACCESS AllowAll (-2)) "select id from t" None
           (Spec.numbered 5) (Spec.start 0)
           (conj (fun _ => eq_refl) (conj (fun _ _ _ => eq_refl)
                                          (fun _ => eq_refl)))
           (fun _ => eq_refl) eq_refl eq_refl eq_refl).
Defined.

(** X11.  On a database where the session can be set up, a permitted
    statement is sent only after the connection is opened, set up and
    committed; the two read-only settings are sent before it exactly
    when the mode is READONLY. *)
Theorem statement_sent_after_setup {S : Type} (drv : driver S)
  (config : Config) (sql : string) (params : option (list value))
  (w : world S) :
  Notions.session_ok drv config ->
  SQLValidator.validate_sql sql (security_mode config) = true ->
  exists t,
    trace (snd (KingbaseDatabase.execute_query drv config sql params w))
    = (trace w ++ Notions.query_log config sql ++ [EConnect]
         ++ (if is_readonly_mode config
             then [EExecute "SET default_transaction_read_only = on;" None;
                   EExecute "SET transaction_read_only = on;" None;
                   ELog LogReadonlySession]
             else [])
         ++ [ECommit; ELog (LogConnected (security_mode config));
             EExecute sql params] ++ t)%list.
Proof.
  intros Hs Hv.
  destruct (execute_query_sends drv config sql params w Hs Hv) as [t Ht].
  exists t. rewrite Ht. unfold Notions.session_events, Notions.pragmas.
  now rewrite <- !app_assoc.
Qed.

Lemma statement_sent_after_setup_witness :
  exists t,
    trace (snd (KingbaseDatabase.execute_query
                  (Notions.picky "select 1" "syntax error" [])
                  (Spec.config_of READONLY AllowAll 10) "select 1" None
                  (Spec.start 0)))
    = ([ELog (LogQuery READONLY "select 1"); EConnect;
        EExecute "SET default_transaction_read_only = on;" None;
        EExecute "SET transaction_read_only = on;" None;
        ELog LogReadonlySession; ECommit; ELog (LogConnected READONLY);
        EExecute "select 1" None] ++ t)%list.
Proof.
  exact (statement_sent_after_setup
           (Notions.picky "select 1" "syntax error" [])
           (Spec.config_of READONLY AllowAll 10) "select 1" None (Spec.start 0)
           (conj (fun _ => eq_refl)
                 (conj (fun _ => eq_refl)
                       (fun _ _ => conj eq_refl eq_refl)))
           eq_refl).
Defined.

(** X12.  When the database rejects a permitted statement, the call
    raises the database's error with its message, nothing is fetched or
    committed after the statement, the failure is logged both as a
    statement failure and as a connection error, and the connection is
    closed. *)
Theorem rejected_statement_raises {S : Type} (drv : driver S)
  (config : Config) (sql e : string) (params : option (list value))
  (w : world S) :
  Notions.session_ok drv config -> Notions.rejects drv sql e ->
  SQLValidator.validate_sql sql (security_mode config) = true ->
  fst (KingbaseDatabase.execute_query drv config sql params w)
  = Raise (Psycopg2Error e) /\
  trace (snd (KingbaseDatabase.execute_query drv config sql params w))
  = (trace w ++ Notions.query_log config sql ++ Notions.session_events config
       ++ [EExecute sql params; ELog (LogSqlFailed e);
           ELog (LogConnectionError e); EClose; ELog LogClosed])%list.
Proof. apply execute_query_rejected. Qed.

Lemma rejected_statement_raises_witness :
  fst (KingbaseDatabase.execute_query
         (Notions.picky "update t set c = 1" "permission denied" [])
         (Spec.config_of LIMITED_WRITE AllowAll 10) "update t set c = 1" None
         (Spec.start 0))
  = Raise (Psycopg2Error "permission denied") /\
  trace (snd (KingbaseDatabase.execute_query
                (Notions.picky "update t set c = 1" "permission denied" [])
                (Spec.config_of LIMITED_WRITE AllowAll 10)
                "update t set c = 1" None (Spec.start 0)))
  = [ELog (LogQuery LIMITED_WRITE "update t set c = 1"); EConnect;
     ECommit; ELog (LogConnected LIMITED_WRITE);
     EExecute "update t set c = 1" None;
     ELog (LogSqlFailed "permission denied");
     ELog (LogConnectionError "permission denied");
     EClose; ELog LogClosed].
Proof.
  exact (rejected_statement_raises
           (Notions.picky "update t set c = 1" "permission denied" [])
           (Spec.config_of LIMITED_WRITE AllowAll 10)
           "update t set c = 1" "permission denied" None (Spec.start 0)
           (conj (fun _ => eq_refl)
                 (conj (fun _ => eq_refl)
                       (fun (H : false = true) _ =>
                          match Bool.diff_false_true H with end)))
           (fun _ _ => eq_refl) eq_refl).
Defined.

(** * Properties of the catalog lookups *)

Section CatalogFacts.
Import PyStr SQLValidator KingbaseDatabase Notions.

Ltac safe_literal :=
  split; [intros []; vm_compute; reflexivity | vm_compute; reflexivity].

Lemma tables_sql_safe : safe_retrieval tables_sql.
Proof. safe_literal. Qed.

Lemma test_sql_safe : safe_retrieval test_sql.
Proof. safe_literal. Qed.

Lemma schemas_sql_safe : safe_retrieval schemas_sql.
Proof. safe_literal. Qed.

Lemma sql_with_comments_safe : safe_retrieval sql_with_comments.
Proof. safe_literal. Qed.

Lemma sql_basic_safe : safe_retrieval sql_basic.
Proof. safe_literal. Qed.

Lemma indexes_sql_safe : safe_retrieval indexes_sql.
Proof. safe_literal. Qed.

Lemma constraints_sql_safe : safe_retrieval constraints_sql.
Proof. safe_literal. Qed.

Lemma test_connection_sql_safe : safe_retrieval "SELECT 1 as test_connection;".
Proof. safe_literal. Qed.

End CatalogFacts.

Section CatalogRuns.
Import PyStr SQLValidator KingbaseDatabase Notions.
Context {S : Type}.
Variable drv : driver S.
Variable config : Config.
Variable str_of_schemas : list string -> string.

Lemma execute_safe_query_fetch (sql : string) (params : option (list value))
  (rows : list row) (w : world S) :
  safe_retrieval sql ->
  session_ok drv config -> serves drv sql -> Spec.fetches drv rows ->
  exists w',
    execute_safe_query drv config sql params w
    = (Ok (Spec.within_ceiling (max_result_rows config) rows), w').
Proof.
  intros [Hv Hp] Hs He Hf. rewrite execute_safe_query_unfold, (Hv READONLY).
  destruct (execute_query_fetch drv config sql params rows w Hs He Hf
              (Hv _) Hp) as [H _].
  destruct (execute_query drv config sql params w) as [r w']. simpl in H.
  subst r. now exists w'.
Qed.

Lemma execute_safe_query_rejected (sql e : string)
  (params : option (list value)) (w : world S) :
  safe_retrieval sql -> session_ok drv config -> rejects drv sql e ->
  exists w',
    execute_safe_query drv config sql params w
    = (Raise (Psycopg2Error e), w').
Proof.
  intros [Hv Hp] Hs He. rewrite execute_safe_query_unfold, (Hv READONLY).
  destruct (execute_query_rejected drv config sql e params w Hs He (Hv _))
    as [H _].
  destruct (execute_query drv config sql params w) as [r w']. simpl in H.
  subst r. now exists w'.
Qed.

Lemma execute_safe_query_unreachable (sql e : string)
  (params : option (list value)) (w : world S) :
  safe_retrieval sql -> fst (db_connect drv (db w)) = inl e ->
  exists w',
    execute_safe_query drv config sql params w
    = (Raise (Psycopg2Error e), w').
Proof.
  intros [Hv Hp] Hc. rewrite execute_safe_query_unfold, (Hv READONLY).
  destruct (execute_query_session drv config sql params w (Hv _))
    as [_ [H _]].
  destruct (H e Hc) as [H1 _].
  destruct (execute_query drv config sql params w) as [r w']. simpl in H1.
  subst r. now exists w'.
Qed.

(** The gate answers without the database unless the policy is
    auto-discover. *)
Lemma gate_static (schema : string) (w : world S) :
  statically_allowed config schema ->
  _is_schema_allowed drv config schema w = (Ok true, w).
Proof.
  unfold statically_allowed, _is_schema_allowed, is_all_schemas_allowed,
    is_auto_discover_schemas, allowed_schemas.
  destruct (schema_access config) as [|names|]; [reflexivity | | tauto].
  intros H. apply mem_In in H. unfold ret. now rewrite H.
Qed.

(** The gate never raises. *)
Lemma gate_total (schema : string) (w : world S) :
  exists b w', _is_schema_allowed drv config schema w = (Ok b, w').
Proof.
  unfold _is_schema_allowed.
  destruct (is_all_schemas_allowed config); [now eexists _, _|].
  destruct (is_auto_discover_schemas config); [|now eexists _, _].
  unfold try_except, bind.
  destruct (execute_safe_query drv config test_sql _ w) as [[rows | e] w'];
    now eexists _, _.
Qed.

End CatalogRuns.

Section GateRuns.
Import PyStr SQLValidator KingbaseDatabase Notions.
Context {S : Type}.
Variable drv : driver S.
Variable config : Config.
Variable str_of_schemas : list string -> string.

Lemma gate_auto_discover (schema : string) (w : world S) :
  schema_access config = AutoDiscover ->
  _is_schema_allowed drv config schema w
  = match execute_safe_query drv config test_sql (Some [VStr schema]) w with
    | (Ok result, w') => (Ok (0 <? List.length result)%nat, w')
    | (Raise _, w') => (Ok false, w')
    end.
Proof.
  intros H. unfold _is_schema_allowed, is_all_schemas_allowed,
    is_auto_discover_schemas. rewrite H. unfold try_except, bind.
  now destruct (execute_safe_query drv config test_sql _ w) as [[r | e] w'].
Qed.

(** What the lookups that check the schema first do when the gate turns
    the schema down. *)
Lemma gate_denied_raises {A} (k : M S A) (schema : string) (w w' : world S) :
  _is_schema_allowed drv config schema w = (Ok false, w') ->
  bind (_is_schema_allowed drv config schema)
    (fun allowed =>
       if negb allowed
       then raise (ValueError ("不允许访问模式: " ++ schema ++ "，允许的模式: "
                               ++ _get_allowed_schemas_display
                                    config str_of_schemas))
       else k) w
  = (Raise (schema_denied config str_of_schemas schema), w').
Proof. intros H. unfold bind. now rewrite H. Qed.

Lemma gate_permitted_runs {A} (k : M S A) (schema : string) (w w' : world S) :
  _is_schema_allowed drv config schema w = (Ok true, w') ->
  bind (_is_schema_allowed drv config schema)
    (fun allowed =>
       if negb allowed
       then raise (ValueError ("不允许访问模式: " ++ schema ++ "，允许的模式: "
                               ++ _get_allowed_schemas_display
                                    config str_of_schemas))
       else k) w
  = k w'.
Proof. intros H. unfold bind. now rewrite H. Qed.

End GateRuns.

(** X13.  With the auto-discover policy the schema gate never raises.
    It permits a schema exactly when the catalog query gives at least
    one row after the row ceiling is applied, and it turns the schema
    down when the database cannot be reached or rejects the query. *)
Theorem auto_discover_gate {S : Type} (drv : driver S) (config : Config)
  (schema : string) (w : world S) :
  schema_access config = AutoDiscover ->
  (exists b,
     fst (KingbaseDatabase._is_schema_allowed drv config schema w) = Ok b) /\
  (forall rows,
     Notions.session_ok drv config ->
     Notions.serves drv KingbaseDatabase.test_sql ->
     Spec.fetches drv rows ->
     fst (KingbaseDatabase._is_schema_allowed drv config schema w)
     = Ok (0 <? List.length
                  (Spec.within_ceiling (max_result_rows config) rows))%nat) /\
  (forall e,
     fst (db_connect drv (db w)) = inl e ->
     fst (KingbaseDatabase._is_schema_allowed drv config schema w)
     = Ok false) /\
  (forall e,
     Notions.session_ok drv config ->
     Notions.rejects drv KingbaseDatabase.test_sql e ->
     fst (KingbaseDatabase._is_schema_allowed drv config schema w)
     = Ok false).
Proof.
  intros H. rewrite (gate_auto_discover drv config schema w H).
  split; [|split; [|split]].
  - destruct (KingbaseDatabase.execute_safe_query _ _ _ _ w) as [[r | e] w'];
      now eexists.
  - intros rows Hs He Hf.
    destruct (execute_safe_query_fetch drv config _ (Some [VStr schema])
                rows w test_sql_safe Hs He Hf) as [w' ->].
    reflexivity.
  - intros e Hc.
    destruct (execute_safe_query_unreachable drv config _ e
                (Some [VStr schema]) w test_sql_safe Hc) as [w' ->].
    reflexivity.
  - intros e Hs He.
    destruct (execute_safe_query_rejected drv config _ e
                (Some [VStr schema]) w test_sql_safe Hs He) as [w' ->].
    reflexivity.
Qed.

Lemma auto_discover_gate_witness :
  fst (KingbaseDatabase._is_schema_allowed Spec.unreachable
         (Spec.config_of READONLY AutoDiscover 1000) "public" (Spec.start tt))
  = Ok false /\
  fst (KingbaseDatabase._is_schema_allowed
         (Spec.scripted [[("schema_name", VStr "public")]] 0)
         (Spec.config_of READONLY AutoDiscover 1000) "public" (Spec.start 0))
  = Ok true /\
  fst (KingbaseDatabase._is_schema_allowed
         (Spec.scripted [[("schema_name", VStr "public")]] 0)
         (Spec.config_of READONLY AutoDiscover 0) "public" (Spec.start 0))
  = Ok false.
Proof.
  split; [|split].
  - exact (proj1 (proj2 (proj2
             (auto_discover_gate Spec.unreachable
                (Spec.config_of READONLY AutoDiscover 1000) "public"
                (Spec.start tt) eq_refl)))
             "connection refused" eq_refl).
  - exact (proj1 (proj2
             (auto_discover_gate
                (Spec.scripted [[("schema_name", VStr "public")]] 0)
                (Spec.config_of READONLY AutoDiscover 1000) "public"
                (Spec.start 0) eq_refl))
             [[("schema_name", VStr "public")]]
             (conj (fun _ => eq_refl)
                   (conj (fun _ => eq_refl) (fun _ _ => conj eq_refl eq_refl)))
             (fun _ _ => eq_refl) (fun _ => eq_refl)).
  - exact (proj1 (proj2
             (auto_discover_gate
                (Spec.scripted [[("schema_name", VStr "public")]] 0)
                (Spec.config_of READONLY AutoDiscover 0) "public"
                (Spec.start 0) eq_refl))
             [[("schema_name", VStr "public")]]
             (conj (fun _ => eq_refl)
                   (conj (fun _ => eq_refl) (fun _ _ => conj eq_refl eq_refl)))
             (fun _ _ => eq_refl) (fun _ => eq_refl)).
Defined.

(** X14.  With the auto-discover policy, [get_all_tables] reports the
    schema as not allowed, with the display string of the policy, when
    the database cannot be reached, and also when the row ceiling is 0,
    whatever the catalog answers. *)
Theorem auto_discover_denials {S : Type} (drv : driver S) (config : Config)
  (str_of_schemas : list string -> string) (schema : string) (w : world S) :
  schema_access config = AutoDiscover ->
  (forall e,
     fst (db_connect drv (db w)) = inl e ->
     fst (KingbaseDatabase.get_all_tables drv config str_of_schemas schema w)
     = Raise (ValueError ("不允许访问模式: " ++ schema
                          ++ "，允许的模式: 自动发现(auto)"))) /\
  (forall rows,
     Notions.session_ok drv config ->
     Notions.serves drv KingbaseDatabase.test_sql ->
     Spec.fetches drv rows ->
     max_result_rows config = 0%Z ->
     fst (KingbaseDatabase.get_all_tables drv config str_of_schemas schema w)
     = Raise (ValueError ("不允许访问模式: " ++ schema
                          ++ "，允许的模式: 自动发现(auto)"))).
Proof.
  intros H.
  assert (D : Notions.schema_denied config str_of_schemas schema
              = ValueError ("不允许访问模式: " ++ schema
                            ++ "，允许的模式: 自动发现(auto)")).
  { unfold Notions.schema_denied,
      KingbaseDatabase._get_allowed_schemas_display,
      is_all_schemas_allowed, is_auto_discover_schemas. now rewrite H. }
  assert (G : forall w',
             KingbaseDatabase._is_schema_allowed drv config schema w
             = (Ok false, w') ->
             fst (KingbaseDatabase.get_all_tables drv config str_of_schemas
                    schema w)
             = Raise (ValueError ("不允许访问模式: " ++ schema
                                  ++ "，允许的模式: 自动发现(auto)"))).
  { intros w' Hg. unfold KingbaseDatabase.get_all_tables.
    rewrite (gate_denied_raises drv config str_of_schemas _ schema w w' Hg).
    now rewrite D. }
  split.
  - intros e Hc. rewrite (gate_auto_discover drv config schema w H) in G.
    destruct (execute_safe_query_unreachable drv config _ e
                (Some [VStr schema]) w test_sql_safe Hc) as [w' E].
    rewrite E in G. now apply (G w').
  - intros rows Hs He Hf H0.
    rewrite (gate_auto_discover drv config schema w H) in G.
    destruct (execute_safe_query_fetch drv config _ (Some [VStr schema])
                rows w test_sql_safe Hs He Hf) as [w' E].
    rewrite E in G. apply (G w'). do 2 f_equal.
    rewrite H0. unfold Spec.within_ceiling, slice_to.
    destruct rows; reflexivity.
Qed.

Lemma auto_discover_denials_witness :
  fst (KingbaseDatabase.get_all_tables Spec.unreachable
         (Spec.config_of READONLY AutoDiscover 1000) (String.concat ", ")
         "public" (Spec.start tt))
  = Raise (ValueError "不允许访问模式: public，允许的模式: 自动发现(auto)").
Proof.
  exact (proj1 (auto_discover_denials Spec.unreachable
                  (Spec.config_of READONLY AutoDiscover 1000)
                  (String.concat ", ") "public" (Spec.start tt) eq_refl)
           "connection refused" eq_refl).
Defined.

Section LookupRuns.
Import PyStr SQLValidator KingbaseDatabase Notions.
Context {S : Type}.
Variable drv : driver S.
Variable config : Config.
Variable str_of_schemas : list string -> string.

(** A lookup that checks the schema and swallows the errors of its
    query either raises the denial of the gate or returns. *)
Lemma guarded_lookup_outcomes (sql : string) (params : option (list value))
  (schema : string) (w : world S) :
  let lookup :=
    bind (_is_schema_allowed drv config schema)
      (fun allowed =>
         if negb allowed
         then raise (ValueError ("不允许访问模式: " ++ schema
                                 ++ "，允许的模式: "
                                 ++ _get_allowed_schemas_display
                                      config str_of_schemas))
         else try_except (execute_safe_query drv config sql params)
                (fun _ => ret [])) in
  (fst (lookup w) = Raise (schema_denied config str_of_schemas schema) \/
   exists rows, fst (lookup w) = Ok rows) /\
  (statically_allowed config schema ->
   safe_retrieval sql ->
   forall e, fst (db_connect drv (db w)) = inl e -> fst (lookup w) = Ok []).
Proof.
  intros lookup. unfold lookup. split.
  - destruct (gate_total drv config schema w) as [[|] [w' Hg]].
    + right. rewrite (gate_permitted_runs drv config str_of_schemas _ _ _ _ Hg).
      unfold try_except.
      destruct (execute_safe_query drv config sql params w') as [[r | e] w2];
        now eexists.
    + left. now rewrite (gate_denied_raises drv config str_of_schemas _ _ _ _ Hg).
  - intros Ha Hsafe e Hc.
    rewrite (gate_permitted_runs drv config str_of_schemas _ _ _ _
               (gate_static drv config schema w Ha)).
    unfold try_except.
    destruct (execute_safe_query_unreachable drv config sql e params w
                Hsafe Hc) as [w' ->].
    reflexivity.
Qed.

End LookupRuns.

(** X15.  [get_table_indexes] and [get_table_constraints] never raise an
    error of the database: each either raises the denial of the schema
    gate or returns rows; for a schema the gate lets through without the
    database, an unreachable database gives the empty list. *)
Theorem index_and_constraint_lookups_swallow_errors {S : Type}
  (drv : driver S) (config : Config)
  (str_of_schemas : list string -> string)
  (table_name schema : string) (w : world S) :
  (fst (KingbaseDatabase.get_table_indexes drv config str_of_schemas
          table_name schema w)
   = Raise (Notions.schema_denied config str_of_schemas schema) \/
   exists rows,
     fst (KingbaseDatabase.get_table_indexes drv config str_of_schemas
            table_name schema w) = Ok rows) /\
  (fst (KingbaseDatabase.get_table_constraints drv config str_of_schemas
          table_name schema w)
   = Raise (Notions.schema_denied config str_of_schemas schema) \/
   exists rows,
     fst (KingbaseDatabase.get_table_constraints drv config str_of_schemas
            table_name schema w) = Ok rows) /\
  (Notions.statically_allowed config schema ->
   forall e,
     fst (db_connect drv (db w)) = inl e ->
     fst (KingbaseDatabase.get_table_indexes drv config str_of_schemas
            table_name schema w) = Ok [] /\
     fst (KingbaseDatabase.get_table_constraints drv config str_of_schemas
            table_name schema w) = Ok []).
Proof.
  pose proof (guarded_lookup_outcomes drv config str_of_schemas
                KingbaseDatabase.indexes_sql
                (Some [VStr table_name; VStr schema]) schema w) as [I1 I2].
  pose proof (guarded_lookup_outcomes drv config str_of_schemas
                KingbaseDatabase.constraints_sql
                (Some [VStr table_name; VStr schema]) schema w) as [C1 C2].
  split; [exact I1 | split; [exact C1|]].
  intros Ha e Hc. split.
  - exact (I2 Ha indexes_sql_safe e Hc).
  - exact (C2 Ha constraints_sql_safe e Hc).
Qed.

Lemma index_and_constraint_lookups_swallow_errors_witness :
  fst (KingbaseDatabase.get_table_indexes Spec.unreachable
         (Spec.config_of READONLY AllowAll 1000) (String.concat ", ")
         "staff" "public" (Spec.start tt)) = Ok [] /\
  fst (KingbaseDatabase.get_table_constraints Spec.unreachable
         (Spec.config_of READONLY AllowAll 1000) (String.concat ", ")
         "staff" "public" (Spec.start tt)) = Ok [].
Proof.
  exact (proj2 (proj2 (index_and_constraint_lookups_swallow_errors
                         Spec.unreachable
                         (Spec.config_of READONLY AllowAll 1000)
                         (String.concat ", ") "staff" "public"
                         (Spec.start tt)))
           I "connection refused" eq_refl).
Defined.

(** X16.  [get_table_structure], for a schema the gate lets through:
    when the database rejects the query that reads the column comments,
    the plain query is sent instead and its rows are returned; the rows
    come back cut at the ceiling in either case. *)
Theorem table_structure_falls_back {S : Type} (drv : driver S)
  (config : Config) (str_of_schemas : list string -> string)
  (table_name schema : string) (rows : list row) (w : world S) :
  Notions.statically_allowed config schema ->
  Notions.session_ok drv config ->
  (Notions.serves drv KingbaseDatabase.sql_with_comments \/
   exists e, Notions.rejects drv KingbaseDatabase.sql_with_comments e) ->
  Notions.serves drv KingbaseDatabase.sql_basic ->
  Spec.fetches drv rows ->
  fst (KingbaseDatabase.get_table_structure drv config str_of_schemas
         table_name schema w)
  = Ok (Spec.within_ceiling (max_result_rows config) rows).
Proof.
  intros Ha Hs Hfirst Hbasic Hf. unfold KingbaseDatabase.get_table_structure.
  rewrite (gate_permitted_runs drv config str_of_schemas _ _ _ _
             (gate_static drv config schema w Ha)).
  set (params := Some [VStr table_name; VStr schema; VStr table_name;
                       VStr schema]).
  unfold bind at 1, try_except, bind at 1.
  destruct Hfirst as [He | [e He]].
  - destruct (execute_safe_query_fetch drv config _ params rows w
                sql_with_comments_safe Hs He Hf) as [w1 ->].
    destruct (Spec.within_ceiling (max_result_rows config) rows) as [|r rs] eqn:E.
    + cbn. destruct (execute_safe_query_fetch drv config _ params rows w1
                       sql_basic_safe Hs Hbasic Hf) as [w2 ->].
      now rewrite E.
    + reflexivity.
  - destruct (execute_safe_query_rejected drv config _ e params w
                sql_with_comments_safe Hs He) as [w1 ->].
    cbn. destruct (execute_safe_query_fetch drv config _ params rows w1
                     sql_basic_safe Hs Hbasic Hf) as [w2 ->].
    reflexivity.
Qed.

Lemma table_structure_falls_back_witness :
  fst (KingbaseDatabase.get_table_structure
         (Notions.picky KingbaseDatabase.sql_with_comments
            "function pg_catalog.col_description does not exist"
            (Spec.numbered 4))
         (Spec.config_of LIMITED_WRITE (AllowList ["public"]) 3)
         (String.concat ", ") "staff" "public" (Spec.start 0))
  = Ok (Spec.numbered 3).
Proof.
  apply (table_structure_falls_back
           (Notions.picky KingbaseDatabase.sql_with_comments
              "function pg_catalog.col_description does not exist"
              (Spec.numbered 4))
           (Spec.config_of LIMITED_WRITE (AllowList ["public"]) 3)
           (String.concat ", ") "staff" "public" (Spec.numbered 4)
           (Spec.start 0)).
  - left. reflexivity.
  - split; [|split]; try (intros s; reflexivity). discriminate.
  - right. exists "function pg_catalog.col_description does not exist".
    intros p s. reflexivity.
  - intros p s. reflexivity.
  - intros s. reflexivity.
Defined.

Lemma within_ceiling_single (limit : Z) (r : row) :
  Spec.within_ceiling limit [r] = if (1 <=? limit)%Z then [r] else [].
Proof.
  unfold Spec.within_ceiling, slice_to.
  change (Z.of_nat (List.length [r])) with 1%Z.
  destruct (Z.ltb_spec limit 1), (Z.leb_spec 1 limit); try lia;
    [|reflexivity].
  destruct (Z.leb_spec 0 limit).
  - replace limit with 0%Z by lia. reflexivity.
  - replace (Z.to_nat (1 + limit)) with 0 by lia. reflexivity.
Qed.

(** X17.  [test_connection] never raises.  It answers [False] when the
    database cannot be reached; on a database that answers the probe
    with the row [test_connection = 1] it answers [True] exactly when
    the row ceiling is at least 1. *)
Theorem connection_test_outcomes {S : Type} (drv : driver S)
  (config : Config) (w : world S) :
  (exists b, fst (KingbaseDatabase.test_connection drv config w) = Ok b) /\
  (forall e,
     fst (db_connect drv (db w)) = inl e ->
     fst (KingbaseDatabase.test_connection drv config w) = Ok false) /\
  (Notions.session_ok drv config ->
   Notions.serves drv "SELECT 1 as test_connection;" ->
   Spec.fetches drv [[("test_connection", VInt 1)]] ->
   fst (KingbaseDatabase.test_connection drv config w)
   = Ok (1 <=? max_result_rows config)%Z).
Proof.
  unfold KingbaseDatabase.test_connection, try_except, bind.
  split; [|split].
  - destruct (KingbaseDatabase.execute_safe_query _ _ _ _ w)
      as [[[|r rs] | e] w']; try (now eexists).
    destruct (KingbaseDatabase.dict_get _ r); now eexists.
  - intros e Hc.
    destruct (execute_safe_query_unreachable drv config _ e None w
                test_connection_sql_safe Hc) as [w' ->].
    reflexivity.
  - intros Hs He Hf.
    destruct (execute_safe_query_fetch drv config _ None _ w
                test_connection_sql_safe Hs He Hf) as [w' ->].
    rewrite within_ceiling_single.
    now destruct (1 <=? max_result_rows config)%Z.
Qed.

Lemma connection_test_outcomes_witness :
  fst (KingbaseDatabase.test_connection Spec.unreachable
         (Spec.config_of READONLY AllowAll 1000) (Spec.start tt))
  = Ok false /\
  fst (KingbaseDatabase.test_connection
         (Spec.scripted [[("test_connection", VInt 1)]] 0)
         (Spec.config_of READONLY AllowAll 0) (Spec.start 0))
  = Ok false.
Proof.
  split.
  - exact (proj1 (proj2 (connection_test_outcomes Spec.unreachable
                           (Spec.config_of READONLY AllowAll 1000)
                           (Spec.start tt)))
             "connection refused" eq_refl).
  - exact (proj2 (proj2 (connection_test_outcomes
                           (Spec.scripted [[("test_connection", VInt 1)]] 0)
                           (Spec.config_of READONLY AllowAll 0)
                           (Spec.start 0)))
             (conj (fun _ => eq_refl)
                   (conj (fun _ => eq_refl) (fun _ _ => conj eq_refl eq_refl)))
             (fun _ _ => eq_refl) (fun _ => eq_refl)).
Defined.

(** X18.  The catalog listings pass the classifier in every security
    mode: on a database that accepts the call, [get_all_tables] (for a
    schema the gate lets through) and [get_available_schemas] return the
    fetched rows, cut at the ceiling, whatever the configured mode. *)
Theorem catalog_listings_in_every_mode {S : Type} (drv : driver S)
  (config : Config) (str_of_schemas : list string -> string)
  (schema : string) (rows : list row) (w : world S) :
  Spec.accepts_all drv -> Spec.fetches drv rows ->
  Notions.statically_allowed config schema ->
  fst (KingbaseDatabase.get_all_tables drv config str_of_schemas schema w)
  = Ok (Spec.within_ceiling (max_result_rows config) rows) /\
  fst (KingbaseDatabase.get_available_schemas drv config w)
  = Ok (Spec.within_ceiling (max_result_rows config) rows).
Proof.
  intros Hacc Hf Ha.
  pose proof (accepts_all_session drv config Hacc) as Hs.
  split.
  - unfold KingbaseDatabase.get_all_tables.
    rewrite (gate_permitted_runs drv config str_of_schemas _ _ _ _
               (gate_static drv config schema w Ha)).
    destruct (execute_safe_query_fetch drv config _ (Some [VStr schema]) rows w
                tables_sql_safe Hs (accepts_all_serves drv _ Hacc) Hf)
      as [w' ->].
    reflexivity.
  - unfold KingbaseDatabase.get_available_schemas.
    destruct (execute_safe_query_fetch drv config _ None rows w
                schemas_sql_safe Hs (accepts_all_serves drv _ Hacc) Hf)
      as [w' ->].
    reflexivity.
Qed.

Lemma catalog_listings_in_every_mode_witness :
  fst (KingbaseDatabase.get_all_tables (Spec.scripted (Spec.numbered 2) 0)
         (Spec.config_of LIMITED_WRITE (AllowList ["public"]) 1000)
         (String.concat ", ") "public" (Spec.start 0))
  = Ok (Spec.numbered 2) /\
  fst (KingbaseDatabase.get_available_schemas
         (Spec.scripted (Spec.numbered 2) 0)
         (Spec.config_of LIMITED_WRITE (AllowList ["public"]) 1000)
         (Spec.start 0))
  = Ok (Spec.numbered 2).
Proof.
  exact (catalog_listings_in_every_mode (Spec.scripted (Spec.numbered 2) 0)
           (Spec.config_of LIMITED_WRITE (AllowList ["public"]) 1000)
           (String.concat ", ") "public" (Spec.numbered 2) (Spec.start 0)
           (conj (fun _ => eq_refl)
                 (conj (fun _ _ _ => eq_refl) (fun _ => eq_refl)))
           (fun _ => eq_refl) (or_introl eq_refl)).
Defined.

(** * Properties of the document generator *)

Section GeneratorFacts.
Import DocumentGenerator Notions.

Lemma column_definition_error (col : row) :
  column_definition col = TypeError <->
  needs_suffix col = true /\ is_text (get col "data_type" (VStr "")) = false.
Proof.
  unfold column_definition, needs_suffix.
  destruct (truthy (get_none col "character_maximum_length")); cbn [orb].
  - destruct (get col "data_type" (VStr "")); simpl;
      split; try discriminate; try tauto; intros [_ H]; discriminate.
  - destruct (truthy (get_none col "numeric_precision")
              && truthy (get_none col "numeric_scale")).
    + destruct (get col "data_type" (VStr "")); simpl;
        split; try discriminate; try tauto; intros [_ H]; discriminate.
    + split; [discriminate | intros [H _]; discriminate].
Qed.

Lemma column_definitions_error (structure : list row) :
  column_definitions structure = TypeError <->
  exists col,
    In col structure /\ needs_suffix col = true /\
    is_text (get col "data_type" (VStr "")) = false.
Proof.
  induction structure as [|col rest IH]; simpl.
  - split; [discriminate | intros [c [[] _]]].
  - destruct (column_definition col) as [d|] eqn:E.
    + destruct (column_definitions rest) as [ds|].
      * split; [discriminate|]. intros [c [[<- | Hc] Hbad]].
        -- apply column_definition_error in Hbad. congruence.
        -- assert (X : @Returned (list string) ds = TypeError)
             by (apply IH; now exists c).
           discriminate.
      * split; [|reflexivity]. intros _.
        destruct (proj1 IH eq_refl) as [c [Hc Hbad]].
        exists c. split; [now right | exact Hbad].
    + split; [|reflexivity]. intros _. exists col.
      split; [now left | now apply column_definition_error].
Qed.

Lemma add_constraint_perm (k : value) (c : row)
  (groups : list (value * list row)) :
  Permutation (concat (map snd (add_constraint k c groups)))
              (c :: concat (map snd groups)).
Proof.
  induction groups as [|[k' cs] groups IH]; simpl.
  - reflexivity.
  - destruct (py_eq k' k); simpl.
    + rewrite <- app_assoc. simpl. apply Permutation_sym, Permutation_middle.
    + rewrite IH. apply Permutation_sym, Permutation_middle.
Qed.

Lemma py_eq_refl (v : value) : py_eq v v = true.
Proof.
  destruct v as [z | s | b |]; simpl;
    [apply Z.eqb_refl | apply String.eqb_refl | now destruct b | reflexivity].
Qed.

Lemma add_constraint_keys (P : value -> Prop) (k : value) (c : row)
  (groups : list (value * list row)) :
  P k -> Forall (fun g => P (fst g)) groups ->
  Forall (fun g => P (fst g)) (add_constraint k c groups).
Proof.
  intros Hk. induction groups as [|[k' cs] groups IH]; simpl; intros H.
  - now constructor.
  - inversion H as [|g gs Hg Hgs]; subst.
    destruct (py_eq k' k); constructor; auto.
Qed.

Lemma add_constraint_distinct (k : value) (c : row)
  (groups : list (value * list row)) :
  distinct_keys groups -> distinct_keys (add_constraint k c groups).
Proof.
  unfold distinct_keys. induction groups as [|[k' cs] groups IH]; simpl;
    intros H.
  - repeat constructor.
  - inversion H as [|g gs Hg Hgs]; subst.
    destruct (py_eq k' k) eqn:E.
    + now constructor.
    + constructor; [|now apply IH].
      apply (add_constraint_keys (fun x => py_eq k' x = false)); assumption.
Qed.

Lemma add_constraint_well_filed (c : row) (groups : list (value * list row)) :
  well_filed groups -> well_filed (add_constraint (type_of c) c groups).
Proof.
  unfold well_filed. induction groups as [|[k' cs] groups IH]; simpl; intros H.
  - constructor; [|constructor]. simpl. split; [discriminate|].
    constructor; [apply py_eq_refl | constructor].
  - inversion H as [|g gs [Hne Hg] Hgs]; subst. simpl in *.
    destruct (py_eq k' (type_of c)) eqn:E.
    + constructor; [|exact Hgs]. simpl. split.
      * destruct cs; discriminate.
      * apply Forall_app. split; [exact Hg | now repeat constructor].
    + constructor; [now split | now apply IH].
Qed.

Lemma group_fold (constraints : list row) :
  forall acc,
    well_filed acc -> distinct_keys acc ->
    let groups :=
      fold_left (fun g c => add_constraint (type_of c) c g) constraints acc in
    well_filed groups /\ distinct_keys groups /\
    Permutation (concat (map snd groups))
                (concat (map snd acc) ++ constraints).
Proof.
  induction constraints as [|c cs IH]; intros acc Hw Hd; simpl.
  - rewrite app_nil_r. now repeat split.
  - destruct (IH (add_constraint (type_of c) c acc)
                (add_constraint_well_filed c acc Hw)
                (add_constraint_distinct _ c acc Hd)) as [Hw' [Hd' Hp]].
    repeat split; try assumption.
    rewrite Hp, add_constraint_perm. apply Permutation_middle.
Qed.

End GeneratorFacts.

(** X19.  [generate_sql_create_statement] raises [TypeError] exactly
    when some column has a length, or a precision and a scale, to append
    to a data type that is not a string; otherwise it returns the
    text. *)
Theorem sql_reference_type_error (timestamp table_name : string)
  (structure : list row) :
  (DocumentGenerator.generate_sql_create_statement timestamp table_name
     structure = DocumentGenerator.TypeError <->
   exists col,
     In col structure /\ Notions.needs_suffix col = true /\
     Notions.is_text (DocumentGenerator.get col "data_type" (VStr ""))
     = false) /\
  ((forall col,
      In col structure ->
      Notions.is_text (DocumentGenerator.get col "data_type" (VStr ""))
      = true) ->
   exists sql,
     DocumentGenerator.generate_sql_create_statement timestamp table_name
       structure = DocumentGenerator.Returned sql).
Proof.
  assert (E : DocumentGenerator.generate_sql_create_statement timestamp
                table_name structure = DocumentGenerator.TypeError <->
              DocumentGenerator.column_definitions structure
              = DocumentGenerator.TypeError).
  { unfold DocumentGenerator.generate_sql_create_statement.
    destruct (DocumentGenerator.column_definitions structure);
      split; congruence. }
  split.
  - rewrite E. apply column_definitions_error.
  - intros Hall.
    destruct (DocumentGenerator.generate_sql_create_statement timestamp
                table_name structure) as [sql|] eqn:G; [now exists sql|].
    pose proof (proj1 E eq_refl) as C.
    apply column_definitions_error in C as [col [Hc [_ Hbad]]].
    rewrite (Hall col Hc) in Hbad. discriminate.
Qed.

Lemma sql_reference_type_error_witness :
  DocumentGenerator.generate_sql_create_statement "2025-01-01 00:00:00" "t"
    [[("column_name", VStr "name"); ("data_type", VNone);
      ("character_maximum_length", VInt 50)]]
  = DocumentGenerator.TypeError.
Proof.
  apply (proj1 (sql_reference_type_error "2025-01-01 00:00:00" "t"
                  [[("column_name", VStr "name"); ("data_type", VNone);
                    ("character_maximum_length", VInt 50)]])).
  eexists. split; [left; reflexivity | split; reflexivity].
Defined.

(** X20.  The grouping of the constraints by type in
    [generate_table_structure_doc] loses and repeats nothing: the groups
    together hold the constraints, each once; every group has a member
    and is filed under a key equal to the type of each member; no two
    groups have equal keys. *)
Theorem constraints_grouped_by_type (constraints : list row) :
  Permutation
    (concat (map snd (DocumentGenerator.group_constraints constraints)))
    constraints /\
  Notions.well_filed (DocumentGenerator.group_constraints constraints) /\
  Notions.distinct_keys (DocumentGenerator.group_constraints constraints).
Proof.
  destruct (group_fold constraints [] (Forall_nil _) (FOP_nil _))
    as [Hw [Hd Hp]].
  repeat split; assumption.
Qed.
